(** * go-xmpp: stream negotiation and qualified-name dispatch

    A shallow embedding of [xmpp.go]: the token scan [nextStart], the
    dispatcher [next], the negotiation routine [Client.init], [Client.Recv]
    and [Client.Send], together with the part of Go's [encoding/xml] that
    these functions call.  The XML decoder is modelled at the level of the
    tokens that [Decoder.Token] hands out. *)

From Stdlib Require Import String Ascii List Bool Arith NArith Lia.
Import ListNotations.
Local Open Scope string_scope.
Local Open Scope list_scope.

Set Implicit Arguments.

(** ** Errors and outcomes *)

(** Go [error] values met in this program.  [io_EOF] is the distinguished
    end-of-stream value; [errorString] is what [errors.New] builds;
    [UnmarshalError] is [xml.UnmarshalError]; [readError] stands for any
    other failure reported by the transport or the tokenizer, carrying its
    text. *)
Inductive error : Type :=
| io_EOF
| errorString (s : string)
| UnmarshalError (s : string)
| readError (s : string).

(** The method [Error() string]. *)
Definition Error (e : error) : string :=
  match e with
  | io_EOF => "EOF"
  | errorString s => s
  | UnmarshalError s => s
  | readError s => s
  end.

Definition errors_New (s : string) : error := errorString s.

(** What a call can do: return a value, return a non-nil error, terminate
    the whole process ([log.Fatal] prints its line and calls [os.Exit(1)];
    the state is the one in which the process ended), or not finish within
    the fuel given to a loop. *)
Inductive outcome (St A : Type) : Type :=
| Ret (a : A) (s : St)
| Fail (e : error) (s : St)
| Exit (logged : string) (s : St)
| OutOfFuel.

Arguments Ret {St A} a s.
Arguments Fail {St A} e s.
Arguments Exit {St A} logged s.
Arguments OutOfFuel {St A}.

Definition M (St A : Type) : Type := St -> outcome St A.

Definition ret {St A} (a : A) : M St A := fun s => Ret a s.
Definition fail {St A} (e : error) : M St A := fun s => Fail e s.
Definition bind {St A B} (m : M St A) (k : A -> M St B) : M St B :=
  fun s =>
    match m s with
    | Ret a s' => k a s'
    | Fail e s' => Fail e s'
    | Exit l s' => Exit l s'
    | OutOfFuel => OutOfFuel
    end.

(** [a, err := f()] with the error kept as a value instead of returned. *)
Definition attempt {St A} (m : M St A) : M St (A + error) :=
  fun s =>
    match m s with
    | Ret a s' => Ret (inl a) s'
    | Fail e s' => Ret (inr e) s'
    | Exit l s' => Exit l s'
    | OutOfFuel => OutOfFuel
    end.

Declare Scope go_scope.
Delimit Scope go_scope with go.
Notation "x <- m ;; k" := (bind m (fun x => k))
  (at level 61, m at next level, right associativity) : go_scope.
Notation "m ;;; k" := (bind m (fun _ => k))
  (at level 61, right associativity) : go_scope.
Local Open Scope go_scope.

(** ** The token level of [encoding/xml]

    The library is not part of the repository; it is modelled after the
    rules of its documentation and of [read.go], [marshal.go] and
    [typeinfo.go] in current Go releases: fields are matched by exact name,
    an untagged field takes the name of its Go field or the [XMLName] tag
    of its struct type, a tagged [XMLName] fixes the element name on both
    sides, and children that match no field are skipped. *)

Module xml.

Record Name : Type := mkName { Space : string; Local : string }.

Record Attr : Type := mkAttr { a_Name : Name; a_Value : string }.

Record StartElement : Type :=
  mkStart { se_Name : Name; se_Attr : list Attr }.

Inductive Token : Type :=
| TStartElement (se : StartElement)
| TEndElement (n : Name)
| TCharData (data : string)
| TComment (data : string)
| TProcInst (target inst : string)
| TDirective (data : string).

(** A decoder is the sequence of tokens [Token] will still deliver, and
    the error it reports once they are used up.  The error is sticky. *)
Record Decoder : Type := mkDecoder { pending : list Token; final : error }.

Definition zeroName : Name := mkName "" "".

(** [func (d *Decoder) Token() (Token, error)] *)
Definition Token_ : M Decoder Token :=
  fun d =>
    match pending d with
    | [] => Fail (final d) d
    | t :: r => Ret t (mkDecoder r (final d))
    end.

(** [func (d *Decoder) Skip() error]: read tokens until the end element
    that closes the element already entered. *)
Fixpoint skipFrom (depth : nat) (toks : list Token) (fin : error)
  : outcome Decoder unit :=
  match toks with
  | [] => Fail fin (mkDecoder [] fin)
  | TStartElement _ :: r => skipFrom (S depth) r fin
  | TEndElement _ :: r =>
      match depth with
      | O => Ret tt (mkDecoder r fin)
      | S k => skipFrom k r fin
      end
  | _ :: r => skipFrom depth r fin
  end.

Definition Skip : M Decoder unit :=
  fun d => skipFrom 0 (pending d) (final d).

(** The start-element search at the head of [Decoder.unmarshal], used
    when [DecodeElement] is called with a nil start. *)
Fixpoint findStart (toks : list Token) (fin : error)
  : outcome Decoder StartElement :=
  match toks with
  | [] => Fail fin (mkDecoder [] fin)
  | TStartElement se :: r => Ret se (mkDecoder r fin)
  | _ :: r => findStart r fin
  end.

(** *** Unmarshalling

    [unm T] is [Decoder.unmarshal] specialised to a target of type [T]:
    given the start element already read and the current value it
    returns the updated value, leaving the decoder just after the
    matching end element.  The first argument bounds the number of
    tokens the call may read. *)
Definition unm (T : Type) : Type := nat -> StartElement -> T -> M Decoder T.

(** One entry of [typeInfo.fields]: the name and name space from the
    struct tag, the mode flag ([fAttr] or [fElement]), and how the field
    is loaded and stored. *)
Record fieldInfo (T : Type) : Type := mkField {
  f_xmlns : string;
  f_name : string;
  f_attr : bool;
  f_setAttr : string -> T -> T;
  f_getAttr : T -> string;
  f_unmarshal : unm T;
  f_marshal : T -> list Token }.

(** [typeInfo] of a struct with a tagged [XMLName] field. *)
Record typeInfo (T : Type) : Type := mkTypeInfo {
  ti_xmlns : string;
  ti_name : string;
  ti_setXMLName : Name -> T -> T;
  ti_fields : list (fieldInfo T) }.

(** [Decoder.unmarshalPath] without parent chains: the first element
    field whose name space (if any) and name match the start element. *)
Definition fieldMatches {T} (t : StartElement) (f : fieldInfo T) : bool :=
  negb (f_attr f)
  && ((f_xmlns f =? "") || (f_xmlns f =? Space (se_Name t)))
  && (f_name f =? Local (se_Name t)).

Definition unmarshalPath {T} (fields : list (fieldInfo T)) (t : StartElement)
  : option (fieldInfo T) :=
  find (fieldMatches t) fields.

(** The loop labelled "Find end element.  Process sub-elements along the
    way." of [Decoder.unmarshal]. *)
Fixpoint findEnd {T} (fields : list (fieldInfo T)) (saveData : bool)
    (fuel : nat) (v : T) (data : string) : M Decoder (T * string) :=
  match fuel with
  | O => fun _ => OutOfFuel
  | S fuel' =>
      tok <- Token_ ;;
      match tok with
      | TStartElement t =>
          match unmarshalPath fields t with
          | Some f =>
              v' <- f_unmarshal f fuel' t v ;;
              findEnd fields saveData fuel' v' data
          | None =>
              Skip ;;; findEnd fields saveData fuel' v data
          end
      | TEndElement _ => ret (v, data)
      | TCharData s =>
          findEnd fields saveData fuel' v
                  (if saveData then data ++ s else data)
      | _ => findEnd fields saveData fuel' v data
      end
  end.

(** Attribute assignment: every attribute is offered to every [fAttr]
    field in declaration order. *)
Definition attrMatches {T} (a : Attr) (f : fieldInfo T) : bool :=
  f_attr f
  && (Local (a_Name a) =? f_name f)
  && ((f_xmlns f =? "") || (f_xmlns f =? Space (a_Name a))).

Definition assignAttr {T} (fields : list (fieldInfo T)) (v : T) (a : Attr) : T :=
  fold_left
    (fun v f => if attrMatches a f then f_setAttr f (a_Value a) v else v)
    fields v.

Definition assignAttrs {T} (fields : list (fieldInfo T)) (attrs : list Attr)
    (v : T) : T :=
  fold_left (assignAttr fields) attrs v.

Definition nameSpaceOrNone (s : string) : string :=
  if s =? "" then "no name space" else s.

(** The [reflect.Struct] case of [Decoder.unmarshal]. *)
Definition unmarshalStruct {T} (ti : typeInfo T) : unm T :=
  fun fuel start v =>
    if negb (ti_name ti =? "") && negb (ti_name ti =? Local (se_Name start))
    then fail (UnmarshalError ("expected element type <" ++ ti_name ti
                               ++ "> but have <" ++ Local (se_Name start) ++ ">"))
    else if negb (ti_xmlns ti =? "") && negb (ti_xmlns ti =? Space (se_Name start))
    then fail (UnmarshalError ("expected element <" ++ ti_name ti
                               ++ "> in name space " ++ ti_xmlns ti ++ " but have "
                               ++ nameSpaceOrNone (Space (se_Name start))))
    else
      let v1 := ti_setXMLName ti (se_Name start) v in
      let v2 := assignAttrs (ti_fields ti) (se_Attr start) v1 in
      r <- findEnd (ti_fields ti) false fuel v2 "" ;;
      ret (fst r).

(** Targets of kind string, bool, []string and [xml.Name]. *)
Definition noFields : list (fieldInfo unit) := [].

Definition unmarshalString : unm string :=
  fun fuel _ _ =>
    r <- findEnd noFields true fuel tt "" ;;
    ret (snd r).

(** *** Runes

    A Go string is a string of bytes; [unicode/utf8] reads runes off it. *)

Definition RuneError : N := 65533.

Definition byteN (c : ascii) : N := N_of_ascii c.

Definition between (lo hi : N) (c : ascii) : bool :=
  ((lo <=? byteN c) && (byteN c <=? hi))%N.

(** The table [first] of [unicode/utf8] on a leading byteN above ASCII: the
    width of the sequence and the range accepted for its second byteN. *)
Definition firstByte (s0 : N) : option (nat * (N * N)) :=
  (if s0 <? 194 then None
   else if s0 <=? 223 then Some (2%nat, (128, 191))
   else if s0 =? 224 then Some (3%nat, (160, 191))
   else if s0 <=? 236 then Some (3%nat, (128, 191))
   else if s0 =? 237 then Some (3%nat, (128, 159))
   else if s0 <=? 239 then Some (3%nat, (128, 191))
   else if s0 =? 240 then Some (4%nat, (144, 191))
   else if s0 <=? 243 then Some (4%nat, (128, 191))
   else if s0 =? 244 then Some (4%nat, (128, 143))
   else None)%N.

(** [utf8.DecodeRuneInString]: the firstByte rune and its width in bytes; an
    ill-formed or cut sequence reads as [RuneError] of width 1. *)
Definition DecodeRuneInString (s : string) : N * nat :=
  match s with
  | EmptyString => (RuneError, 0)
  | String c0 r =>
      if (byteN c0 <? 128)%N then (byteN c0, 1)
      else
        match firstByte (byteN c0), r with
        | Some (2, (lo, hi)), String c1 _ =>
            if between lo hi c1
            then ((byteN c0 mod 32 * 64 + byteN c1 mod 64)%N, 2)
            else (RuneError, 1)
        | Some (3, (lo, hi)), String c1 (String c2 _) =>
            if between lo hi c1 && between 128 191 c2
            then ((byteN c0 mod 16 * 4096 + byteN c1 mod 64 * 64 + byteN c2 mod 64)%N, 3)
            else (RuneError, 1)
        | Some (4, (lo, hi)), String c1 (String c2 (String c3 _)) =>
            if between lo hi c1 && between 128 191 c2 && between 128 191 c3
            then ((byteN c0 mod 8 * 262144 + byteN c1 mod 64 * 4096
                   + byteN c2 mod 64 * 64 + byteN c3 mod 64)%N, 4)
            else (RuneError, 1)
        | _, _ => (RuneError, 1)
        end
  end.

Definition byteAt (s : string) (i : nat) : N :=
  match String.get i s with
  | Some c => byteN c
  | None => 0%N
  end.

(** [utf8.RuneStart]: not a continuation byteN. *)
Definition RuneStart (b : N) : bool := negb ((128 <=? b) && (b <? 192))%N.

(** [utf8.DecodeLastRuneInString]: the start of the last rune is looked
    for among the three bytes before the last one. *)
Definition DecodeLastRuneInString (s : string) : N * nat :=
  let n := String.length s in
  match n with
  | O => (RuneError, 0)
  | S last =>
      if (byteAt s last <? 128)%N then (byteAt s last, 1)
      else
        let start :=
          match find (fun j => Nat.leb j n && RuneStart (byteAt s (n - j))) [2; 3; 4] with
          | Some j => n - j
          | None => n - 5
          end in
        let (r, size) := DecodeRuneInString (substring start (n - start) s) in
        if Nat.eqb (start + size) n then (r, size) else (RuneError, 1)
  end.

(** [unicode.IsSpace]. *)
Definition IsSpace (r : N) : bool :=
  (if r <=? 255
   then existsb (N.eqb r) [9; 10; 11; 12; 13; 32; 133; 160]
   else (r =? 5760) || ((8192 <=? r) && (r <=? 8202)) || (r =? 8232) || (r =? 8233)
        || (r =? 8239) || (r =? 8287) || (r =? 12288))%N.

(** [strings.TrimLeftFunc(s, unicode.IsSpace)]; [skip] counts the bytes
    still to pass of a rune already looked at. *)
Fixpoint TrimLeftFrom (skip : nat) (s : string) : string :=
  match s with
  | EmptyString => EmptyString
  | String _ r =>
      match skip with
      | S k => TrimLeftFrom k r
      | O =>
          let (rn, w) := DecodeRuneInString s in
          if IsSpace rn then TrimLeftFrom (w - 1) r else s
      end
  end.

(** The loop of [lastIndexFunc(s, unicode.IsSpace, false)] from index
    [i] down; every round passes at least one byteN. *)
Fixpoint lastIndexFrom (rounds : nat) (s : string) (i : nat) : option nat :=
  match rounds, i with
  | S rounds', S _ =>
      let (r, size) := DecodeLastRuneInString (substring 0 i s) in
      if IsSpace r then lastIndexFrom rounds' s (i - size) else Some (i - size)
  | _, _ => None
  end.

(** [strings.TrimRightFunc(s, unicode.IsSpace)]. *)
Definition TrimRight (s : string) : string :=
  let n := String.length s in
  match lastIndexFrom n s n with
  | Some i =>
      if (128 <=? byteAt s i)%N
      then substring 0 (i + snd (DecodeRuneInString (substring i (n - i) s))) s
      else substring 0 (i + 1) s
  | None => EmptyString
  end.

(** [strings.TrimSpace]: leading and trailing Unicode white space off. *)
Definition TrimSpace (s : string) : string := TrimRight (TrimLeftFrom 0 s).

Definition dquote : string := String (ascii_of_nat 34) EmptyString.

(** [strconv.ParseBool]; the quoting of the offending text in the error
    message does not reproduce Go's escapes. *)
Definition ParseBool (s : string) : bool + error :=
  if existsb (String.eqb s) ["1"; "t"; "T"; "TRUE"; "true"; "True"] then inl true
  else if existsb (String.eqb s) ["0"; "f"; "F"; "FALSE"; "false"; "False"] then inl false
  else inr (readError ("strconv.ParseBool: parsing " ++ dquote ++ s ++ dquote
                       ++ ": invalid syntax")).

Definition unmarshalBool : unm bool :=
  fun fuel _ _ =>
    r <- findEnd noFields true fuel tt "" ;;
    if snd r =? "" then ret false
    else match ParseBool (TrimSpace (snd r)) with
         | inl b => ret b
         | inr e => fail e
         end.

(** Slice of strings: grow by one and unmarshal into the new element. *)
Definition unmarshalStrings : unm (list string) :=
  fun fuel start l =>
    s <- unmarshalString fuel start "" ;;
    ret (l ++ [s]).

(** A target of type [xml.Name] receives the name of the element. *)
Definition unmarshalName : unm Name :=
  fun fuel start _ =>
    findEnd noFields false fuel tt "" ;;;
    ret (se_Name start).

(** A target behind a pointer is allocated when nil. *)
Definition unmarshalPtr {U} (zero : U) (u : unm U) : unm (option U) :=
  fun fuel start o =>
    v <- u fuel start (match o with Some x => x | None => zero end) ;;
    ret (Some v).

(** Lifting the unmarshaller of a field's type to the enclosing struct. *)
Definition onField {T U} (get : T -> U) (set : U -> T -> T) (u : unm U) : unm T :=
  fun fuel start v =>
    x <- u fuel start (get v) ;;
    ret (set x v).

(** *** Marshalling

    The tokens [Encoder.Encode] prints for a value, in the form it passes
    to its printer: an element carries the name space and name of its
    [fieldInfo] or of the [XMLName] tag of its type. *)
Definition charData (s : string) : list Token :=
  if s =? "" then [] else [TCharData s].

Definition marshalSimple (xmlns name text : string) : list Token :=
  TStartElement (mkStart (mkName xmlns name) [])
  :: charData text ++ [TEndElement (mkName xmlns name)].

Definition marshalAttrs {T} (fields : list (fieldInfo T)) (v : T) : list Attr :=
  map (fun f => mkAttr (mkName (f_xmlns f) (f_name f)) (f_getAttr f v))
      (filter (fun f => f_attr f) fields).

Definition marshalStruct {T} (ti : typeInfo T) (v : T) : list Token :=
  let name := mkName (ti_xmlns ti) (ti_name ti) in
  TStartElement (mkStart name (marshalAttrs (ti_fields ti) v))
  :: flat_map (fun f => if f_attr f then [] else f_marshal f v) (ti_fields ti)
  ++ [TEndElement name].

Definition FormatBool (b : bool) : string := if b then "true" else "false".







(** *** Fields by kind of tag and type *)

Definition noUnmarshal {T} : unm T := fun _ _ v => ret v.

(** [xml:"name,attr"] on a string. *)
Definition attrString {T} (name : string) (get : T -> string)
    (set : string -> T -> T) : fieldInfo T :=
  mkField "" name true set get noUnmarshal (fun _ => []).

(** A string field read from a child element.  A tag that names the
    element, [xml:"name"], gives the field the name space of the [XMLName]
    tag of the enclosing struct; a field without tag goes by its Go name
    and has no name space ([xmlns] empty). *)
Definition elemString {T} (xmlns name : string) (get : T -> string)
    (set : string -> T -> T) : fieldInfo T :=
  mkField xmlns name false (fun _ v => v) (fun _ => "")
          (onField get set unmarshalString)
          (fun v => marshalSimple xmlns name (get v)).

Definition elemBool {T} (name : string) (get : T -> bool)
    (set : bool -> T -> T) : fieldInfo T :=
  mkField "" name false (fun _ v => v) (fun _ => "")
          (onField get set unmarshalBool)
          (fun v => marshalSimple "" name (FormatBool (get v))).

Definition elemStrings {T} (xmlns name : string) (get : T -> list string)
    (set : list string -> T -> T) : fieldInfo T :=
  mkField xmlns name false (fun _ v => v) (fun _ => "")
          (onField get set unmarshalStrings)
          (fun v => flat_map (marshalSimple xmlns name) (get v)).

(** A field of type [xml.Name]; it is printed as an empty element. *)
Definition elemName {T} (name : string) (get : T -> Name)
    (set : Name -> T -> T) : fieldInfo T :=
  mkField "" name false (fun _ v => v) (fun _ => "")
          (onField get set unmarshalName)
          (fun _ => marshalSimple "" name "").

(** An untagged field of struct type: name and name space come from the
    [XMLName] tag of that type. *)
Definition elemStruct {T U} (ti : typeInfo U) (get : T -> U)
    (set : U -> T -> T) : fieldInfo T :=
  mkField (ti_xmlns ti) (ti_name ti) false (fun _ v => v) (fun _ => "")
          (onField get set (unmarshalStruct ti))
          (fun v => marshalStruct ti (get v)).

(** The same behind a pointer; a nil pointer prints nothing. *)
Definition elemPtr {T U} (ti : typeInfo U) (zero : U) (get : T -> option U)
    (set : option U -> T -> T) : fieldInfo T :=
  mkField (ti_xmlns ti) (ti_name ti) false (fun _ v => v) (fun _ => "")
          (onField get set (unmarshalPtr zero (unmarshalStruct ti)))
          (fun v => match get v with
                    | Some u => marshalStruct ti u
                    | None => []
                    end).

End xml.

Import xml.

(** ** Name spaces and stanza types of [xmpp.go] *)

Definition nsStream : string := "http://etherx.jabber.org/streams".
Definition nsTLS : string := "urn:ietf:params:xml:ns:xmpp-tls".
Definition nsSASL : string := "urn:ietf:params:xml:ns:xmpp-sasl".
Definition nsBind : string := "urn:ietf:params:xml:ns:xmpp-bind".
Definition nsClient : string := "jabber:client".

(** RFC 3920 C.3: TLS name space.  The tag of [tlsStartTLS] is written in
    the source without the leading [urn]. *)
Module tlsStartTLS.
Record t : Type := mk { XMLName : Name; Required : bool }.
Definition zero : t := mk zeroName false.
Definition info : typeInfo t :=
  mkTypeInfo ":ietf:params:xml:ns:xmpp-tls" "starttls"
    (fun n v => mk n (Required v))
    [ elemBool "Required" Required (fun x v => mk (XMLName v) x) ].
End tlsStartTLS.

Module tlsProceed.
Record t : Type := mk { XMLName : Name }.
Definition zero : t := mk zeroName.
Definition info : typeInfo t :=
  mkTypeInfo "urn:ietf:params:xml:ns:xmpp-tls" "proceed" (fun n _ => mk n) [].
End tlsProceed.

Module tlsFailure.
Record t : Type := mk { XMLName : Name }.
Definition zero : t := mk zeroName.
Definition info : typeInfo t :=
  mkTypeInfo "urn:ietf:params:xml:ns:xmpp-tls" "failure" (fun n _ => mk n) [].
End tlsFailure.

(** RFC 3920 C.4: SASL name space. *)
Module saslMechanisms.
Record t : Type := mk { XMLName : Name; Mechanism : list string }.
Definition zero : t := mk zeroName [].
Definition info : typeInfo t :=
  mkTypeInfo "urn:ietf:params:xml:ns:xmpp-sasl" "mechanisms"
    (fun n v => mk n (Mechanism v))
    [ elemStrings "urn:ietf:params:xml:ns:xmpp-sasl" "mechanism" Mechanism
        (fun x v => mk (XMLName v) x) ].
End saslMechanisms.

Module saslAbort.
Record t : Type := mk { XMLName : Name }.
Definition zero : t := mk zeroName.
Definition info : typeInfo t :=
  mkTypeInfo "urn:ietf:params:xml:ns:xmpp-sasl" "abort" (fun n _ => mk n) [].
End saslAbort.

Module saslSuccess.
Record t : Type := mk { XMLName : Name }.
Definition zero : t := mk zeroName.
Definition info : typeInfo t :=
  mkTypeInfo "urn:ietf:params:xml:ns:xmpp-sasl" "success" (fun n _ => mk n) [].
End saslSuccess.

Module saslFailure.
Record t : Type := mk { XMLName : Name; Any : Name }.
Definition zero : t := mk zeroName zeroName.
Definition info : typeInfo t :=
  mkTypeInfo "urn:ietf:params:xml:ns:xmpp-sasl" "failure"
    (fun n v => mk n (Any v))
    [ elemName "Any" Any (fun x v => mk (XMLName v) x) ].
End saslFailure.

(** RFC 3920 C.5: resource binding name space. *)
Module bindBind.
Record t : Type := mk { XMLName : Name; Resource : string; Jid : string }.
Definition zero : t := mk zeroName "" "".
Definition info : typeInfo t :=
  mkTypeInfo "urn:ietf:params:xml:ns:xmpp-bind" "bind"
    (fun n v => mk n (Resource v) (Jid v))
    [ elemString "" "Resource" Resource (fun x v => mk (XMLName v) x (Jid v));
      elemString "" "Jid" Jid (fun x v => mk (XMLName v) (Resource v) x) ].
End bindBind.

(** RFC 3920 C.1: streams name space. *)
Module streamFeatures.
Record t : Type := mk {
  XMLName : Name;
  StartTLS : tlsStartTLS.t;
  Mechanisms : saslMechanisms.t;
  Bind : bindBind.t;
  Session : bool }.
Definition zero : t :=
  mk zeroName tlsStartTLS.zero saslMechanisms.zero bindBind.zero false.
Definition info : typeInfo t :=
  mkTypeInfo "http://etherx.jabber.org/streams" "features"
    (fun n v => mk n (StartTLS v) (Mechanisms v) (Bind v) (Session v))
    [ elemStruct tlsStartTLS.info StartTLS
        (fun x v => mk (XMLName v) x (Mechanisms v) (Bind v) (Session v));
      elemStruct saslMechanisms.info Mechanisms
        (fun x v => mk (XMLName v) (StartTLS v) x (Bind v) (Session v));
      elemStruct bindBind.info Bind
        (fun x v => mk (XMLName v) (StartTLS v) (Mechanisms v) x (Session v));
      elemBool "Session" Session
        (fun x v => mk (XMLName v) (StartTLS v) (Mechanisms v) (Bind v) x) ].
End streamFeatures.

Module streamError.
Record t : Type := mk { XMLName : Name; Any : Name; Text : string }.
Definition zero : t := mk zeroName zeroName "".
Definition info : typeInfo t :=
  mkTypeInfo "http://etherx.jabber.org/streams" "error"
    (fun n v => mk n (Any v) (Text v))
    [ elemName "Any" Any (fun x v => mk (XMLName v) x (Text v));
      elemString "" "Text" Text (fun x v => mk (XMLName v) (Any v) x) ].
End streamError.

(** RFC 3921 B.1: jabber:client. *)
Module clientError.
Record t : Type := mk {
  XMLName : Name; Code : string; Type_ : string; Any : Name; Text : string }.
Definition zero : t := mk zeroName "" "" zeroName "".
Definition info : typeInfo t :=
  mkTypeInfo "jabber:client" "error"
    (fun n v => mk n (Code v) (Type_ v) (Any v) (Text v))
    [ attrString "Code" Code
        (fun x v => mk (XMLName v) x (Type_ v) (Any v) (Text v));
      attrString "Type" Type_
        (fun x v => mk (XMLName v) (Code v) x (Any v) (Text v));
      elemName "Any" Any
        (fun x v => mk (XMLName v) (Code v) (Type_ v) x (Text v));
      elemString "" "Text" Text
        (fun x v => mk (XMLName v) (Code v) (Type_ v) (Any v) x) ].
End clientError.

Module Message.
Record t : Type := mk {
  XMLName : Name;
  From : string;
  Id : string;
  To : string;
  Type_ : string;
  Subject : string;
  Body : string;
  Thread : string }.
Definition zero : t := mk zeroName "" "" "" "" "" "" "".
Definition info : typeInfo t :=
  mkTypeInfo "jabber:client" "message"
    (fun n v => mk n (From v) (Id v) (To v) (Type_ v) (Subject v) (Body v) (Thread v))
    [ attrString "from" From
        (fun x v => mk (XMLName v) x (Id v) (To v) (Type_ v) (Subject v) (Body v) (Thread v));
      attrString "id" Id
        (fun x v => mk (XMLName v) (From v) x (To v) (Type_ v) (Subject v) (Body v) (Thread v));
      attrString "to" To
        (fun x v => mk (XMLName v) (From v) (Id v) x (Type_ v) (Subject v) (Body v) (Thread v));
      attrString "type" Type_
        (fun x v => mk (XMLName v) (From v) (Id v) (To v) x (Subject v) (Body v) (Thread v));
      elemString "jabber:client" "subject" Subject
        (fun x v => mk (XMLName v) (From v) (Id v) (To v) (Type_ v) x (Body v) (Thread v));
      elemString "jabber:client" "body" Body
        (fun x v => mk (XMLName v) (From v) (Id v) (To v) (Type_ v) (Subject v) x (Thread v));
      elemString "jabber:client" "thread" Thread
        (fun x v => mk (XMLName v) (From v) (Id v) (To v) (Type_ v) (Subject v) (Body v) x) ].
End Message.

Module Presence.
Record t : Type := mk {
  XMLName : Name;
  From : string;
  Id : string;
  To : string;
  Type_ : string;
  Lang : string;
  Show : string;
  Status : string;
  Priority : string;
  Error : option clientError.t }.
Definition zero : t := mk zeroName "" "" "" "" "" "" "" "" None.
Definition info : typeInfo t :=
  mkTypeInfo "jabber:client" "presence"
    (fun n v => mk n (From v) (Id v) (To v) (Type_ v) (Lang v) (Show v) (Status v)
                   (Priority v) (Error v))
    [ attrString "from" From
        (fun x v => mk (XMLName v) x (Id v) (To v) (Type_ v) (Lang v) (Show v)
                       (Status v) (Priority v) (Error v));
      attrString "id" Id
        (fun x v => mk (XMLName v) (From v) x (To v) (Type_ v) (Lang v) (Show v)
                       (Status v) (Priority v) (Error v));
      attrString "to" To
        (fun x v => mk (XMLName v) (From v) (Id v) x (Type_ v) (Lang v) (Show v)
                       (Status v) (Priority v) (Error v));
      attrString "type" Type_
        (fun x v => mk (XMLName v) (From v) (Id v) (To v) x (Lang v) (Show v)
                       (Status v) (Priority v) (Error v));
      attrString "lang" Lang
        (fun x v => mk (XMLName v) (From v) (Id v) (To v) (Type_ v) x (Show v)
                       (Status v) (Priority v) (Error v));
      attrString "show" Show
        (fun x v => mk (XMLName v) (From v) (Id v) (To v) (Type_ v) (Lang v) x
                       (Status v) (Priority v) (Error v));
      attrString "status" Status
        (fun x v => mk (XMLName v) (From v) (Id v) (To v) (Type_ v) (Lang v) (Show v)
                       x (Priority v) (Error v));
      attrString "priority" Priority
        (fun x v => mk (XMLName v) (From v) (Id v) (To v) (Type_ v) (Lang v) (Show v)
                       (Status v) x (Error v));
      elemPtr clientError.info clientError.zero Error
        (fun x v => mk (XMLName v) (From v) (Id v) (To v) (Type_ v) (Lang v) (Show v)
                       (Status v) (Priority v) x) ].
End Presence.

Module clientIQ.
Record t : Type := mk {
  XMLName : Name;
  From : string;
  Id : string;
  To : string;
  Type_ : string;
  Error : clientError.t;
  Bind : bindBind.t }.
Definition zero : t := mk zeroName "" "" "" "" clientError.zero bindBind.zero.
Definition info : typeInfo t :=
  mkTypeInfo "jabber:client" "iq"
    (fun n v => mk n (From v) (Id v) (To v) (Type_ v) (Error v) (Bind v))
    [ attrString "From" From
        (fun x v => mk (XMLName v) x (Id v) (To v) (Type_ v) (Error v) (Bind v));
      attrString "Id" Id
        (fun x v => mk (XMLName v) (From v) x (To v) (Type_ v) (Error v) (Bind v));
      attrString "To" To
        (fun x v => mk (XMLName v) (From v) (Id v) x (Type_ v) (Error v) (Bind v));
      attrString "Type" Type_
        (fun x v => mk (XMLName v) (From v) (Id v) (To v) x (Error v) (Bind v));
      elemStruct clientError.info Error
        (fun x v => mk (XMLName v) (From v) (Id v) (To v) (Type_ v) x (Bind v));
      elemStruct bindBind.info Bind
        (fun x v => mk (XMLName v) (From v) (Id v) (To v) (Type_ v) (Error v) x) ].
End clientIQ.

(** The dynamic values held by the [interface{}] results of [next] and
    accepted by [Send]: a pointer to one of the structs, or a plain string
    (what the table allocates for SASL challenge and response). *)
Inductive value : Type :=
| V_streamFeatures (v : streamFeatures.t)
| V_streamError (v : streamError.t)
| V_tlsStartTLS (v : tlsStartTLS.t)
| V_tlsProceed (v : tlsProceed.t)
| V_tlsFailure (v : tlsFailure.t)
| V_saslMechanisms (v : saslMechanisms.t)
| V_string (s : string)
| V_saslAbort (v : saslAbort.t)
| V_saslSuccess (v : saslSuccess.t)
| V_saslFailure (v : saslFailure.t)
| V_bindBind (v : bindBind.t)
| V_Message (v : Message.t)
| V_Presence (v : Presence.t)
| V_clientIQ (v : clientIQ.t)
| V_clientError (v : clientError.t).

(** ** [DecodeElement] *)

(** [DecodeElement(&x, start)] for a pointer to a struct: with a nil start
    the next start element is searched first; the errors of that search
    are returned, not fatal.  The fuel covers every pending token. *)
Definition DecodeInto {T} (ti : typeInfo T) (v : T) (start : option StartElement)
  : M Decoder T :=
  fun d =>
    let fuel := S (length (pending d)) in
    match start with
    | Some se => unmarshalStruct ti fuel se v d
    | None =>
        (se <- (fun d => findStart (pending d) (final d)) ;;
         unmarshalStruct ti fuel se v) d
    end.

(** [func (d *Decoder) DecodeElement(v interface{}, start *StartElement) error]
    on the values the dispatcher allocates.  The first test of the library
    routine rejects anything that is not a pointer. *)
Definition DecodeElement (nv : value) (start : option StartElement)
  : M Decoder value :=
  match nv with
  | V_string _ => fail (errors_New "non-pointer passed to Unmarshal")
  | V_streamFeatures v =>
      x <- DecodeInto streamFeatures.info v start ;; ret (V_streamFeatures x)
  | V_streamError v =>
      x <- DecodeInto streamError.info v start ;; ret (V_streamError x)
  | V_tlsStartTLS v =>
      x <- DecodeInto tlsStartTLS.info v start ;; ret (V_tlsStartTLS x)
  | V_tlsProceed v =>
      x <- DecodeInto tlsProceed.info v start ;; ret (V_tlsProceed x)
  | V_tlsFailure v =>
      x <- DecodeInto tlsFailure.info v start ;; ret (V_tlsFailure x)
  | V_saslMechanisms v =>
      x <- DecodeInto saslMechanisms.info v start ;; ret (V_saslMechanisms x)
  | V_saslAbort v =>
      x <- DecodeInto saslAbort.info v start ;; ret (V_saslAbort x)
  | V_saslSuccess v =>
      x <- DecodeInto saslSuccess.info v start ;; ret (V_saslSuccess x)
  | V_saslFailure v =>
      x <- DecodeInto saslFailure.info v start ;; ret (V_saslFailure x)
  | V_bindBind v =>
      x <- DecodeInto bindBind.info v start ;; ret (V_bindBind x)
  | V_Message v =>
      x <- DecodeInto Message.info v start ;; ret (V_Message x)
  | V_Presence v =>
      x <- DecodeInto Presence.info v start ;; ret (V_Presence x)
  | V_clientIQ v =>
      x <- DecodeInto clientIQ.info v start ;; ret (V_clientIQ x)
  | V_clientError v =>
      x <- DecodeInto clientError.info v start ;; ret (V_clientError x)
  end.

(** ** The dispatcher *)

(** [nextStart]: scan the token stream for the next start element.  A
    token error is handed to [log.Fatal]. *)
Fixpoint nextStart_scan (toks : list Token) (fin : error)
  : outcome Decoder StartElement :=
  match toks with
  | [] => Exit ("token" ++ Error fin) (mkDecoder [] fin)
  | TStartElement t :: r => Ret t (mkDecoder r fin)
  | _ :: r => nextStart_scan r fin
  end.

Definition nextStart : M Decoder StartElement :=
  fun p => nextStart_scan (pending p) (final p).

(** A Go [switch] on a string tag with constant cases: the first equal
    case is taken, the default otherwise. *)
Fixpoint switch {A} (tag : string) (cases : list (string * A)) : option A :=
  match cases with
  | [] => None
  | (c, a) :: r => if tag =? c then Some a else switch tag r
  end.

(** The cases of the switch in [next], in source order, with the value
    each one allocates. *)
Definition protoCases : list (string * value) :=
  [ ((nsStream ++ " features")%string, V_streamFeatures streamFeatures.zero);
    ((nsStream ++ " error")%string, V_streamError streamError.zero);
    ((nsTLS ++ " starttls")%string, V_tlsStartTLS tlsStartTLS.zero);
    ((nsTLS ++ " proceed")%string, V_tlsProceed tlsProceed.zero);
    ((nsTLS ++ " failure")%string, V_tlsFailure tlsFailure.zero);
    ((nsSASL ++ " mechanisms")%string, V_saslMechanisms saslMechanisms.zero);
    ((nsSASL ++ " challenge")%string, V_string "");
    ((nsSASL ++ " response")%string, V_string "");
    ((nsSASL ++ " abort")%string, V_saslAbort saslAbort.zero);
    ((nsSASL ++ " success")%string, V_saslSuccess saslSuccess.zero);
    ((nsSASL ++ " failure")%string, V_saslFailure saslFailure.zero);
    ((nsBind ++ " bind")%string, V_bindBind bindBind.zero);
    ((nsClient ++ " message")%string, V_Message Message.zero);
    ((nsClient ++ " presence")%string, V_Presence Presence.zero);
    ((nsClient ++ " iq")%string, V_clientIQ clientIQ.zero);
    ((nsClient ++ " error")%string, V_clientError clientError.zero) ].

(** [next]: read the start element, allocate by qualified name, unmarshal
    into that storage. *)
Definition next : M Decoder (Name * value) :=
  se <- nextStart ;;
  match switch (Space (se_Name se) ++ " " ++ Local (se_Name se))%string protoCases with
  | Some nv =>
      x <- DecodeElement nv (Some se) ;;
      ret (se_Name se, x)
  | None =>
      fail (errors_New ("unexpected XMPP message " ++ Space (se_Name se)
                        ++ " <" ++ Local (se_Name se) ++ "/>"))
  end.

(** ** String helpers used by [init] *)

(** Cutting at the first occurrence of a one-byte separator. *)
Fixpoint cut (sep : ascii) (s : string) : option (string * string) :=
  match s with
  | EmptyString => None
  | String c r =>
      if Ascii.eqb c sep then Some (EmptyString, r)
      else match cut sep r with
           | Some (a, b) => Some (String c a, b)
           | None => None
           end
  end.

(** [strings.SplitN(s, sep, 2)] for a one-byte separator. *)
Definition SplitN2 (s : string) (sep : ascii) : list string :=
  match cut sep s with
  | Some (a, b) => [a; b]
  | None => [s]
  end.

(** [xmlSpecial] and [xmlEscape]. *)
Definition xmlSpecial (c : ascii) : option string :=
  match nat_of_ascii c with
  | 60 => Some "&lt;"
  | 62 => Some "&gt;"
  | 34 => Some "&quot;"
  | 39 => Some "&apos;"
  | 38 => Some "&amp;"
  | _ => None
  end.

Fixpoint xmlEscape (s : string) : string :=
  match s with
  | EmptyString => EmptyString
  | String c r =>
      match xmlSpecial c with
      | Some e => e ++ xmlEscape r
      | None => String c (xmlEscape r)
      end
  end.

(** [base64.StdEncoding]: three bytes to four characters, padded. *)
Definition encodeStd : string :=
  "ABCDEFGHIJKLMNOPQRSTUVWXYZabcdefghijklmnopqrstuvwxyz0123456789+/".

Definition b64 (n : nat) : ascii :=
  match String.get n encodeStd with
  | Some c => c
  | None => "="%char
  end.

Fixpoint base64_Encode (src : list nat) : string :=
  match src with
  | [] => EmptyString
  | [a] =>
      String (b64 (a / 4)) (String (b64 (a mod 4 * 16)) "==")
  | [a; b] =>
      String (b64 (a / 4))
        (String (b64 (a mod 4 * 16 + b / 16))
           (String (b64 (b mod 16 * 4)) "="))
  | a :: b :: c :: r =>
      String (b64 (a / 4))
        (String (b64 (a mod 4 * 16 + b / 16))
           (String (b64 (b mod 16 * 4 + c / 64))
              (String (b64 (c mod 64)) (base64_Encode r))))
  end.

Definition bytesOf (s : string) : list nat :=
  map nat_of_ascii (list_ascii_of_string s).

Definition NUL : string := String zero EmptyString.
Definition LF : string := String (ascii_of_nat 10) EmptyString.

(** [%v] of a [[]string]. *)
Definition fmt_v (l : list string) : string :=
  "[" ++ String.concat " " l ++ "]".

(** ** The client *)

(** [dec] is the decoder over the connection, [tls] the writes made to the
    connection so far (oldest first), [jid] the bound identifier.
    [stdout] collects what [fmt.Println] prints.  [W_cut] is the write of
    an element that the connection refused: how many of its bytes went out
    is not known. *)
Inductive written : Type :=
| W_text (s : string)
| W_xml (toks : list Token)
| W_cut (toks : list Token).

Record Client : Type := mkClient {
  dec : Decoder;
  tls : list written;
  jid : string;
  stdout : list value }.

Definition onDec {A} (m : M Decoder A) : M Client A :=
  fun c =>
    match m (dec c) with
    | Ret a d => Ret a (mkClient d (tls c) (jid c) (stdout c))
    | Fail e d => Fail e (mkClient d (tls c) (jid c) (stdout c))
    | Exit l d => Exit l (mkClient d (tls c) (jid c) (stdout c))
    | OutOfFuel => OutOfFuel
    end.

(** [fmt.Fprintf(c.tls, ...)]; the result of the write is not looked at. *)
Definition Fprintf (s : string) : M Client unit :=
  fun c => Ret tt (mkClient (dec c) (tls c ++ [W_text s]) (jid c) (stdout c)).

Definition Println (v : value) : M Client unit :=
  fun c => Ret tt (mkClient (dec c) (tls c) (jid c) (stdout c ++ [v])).

Definition setJid (j : string) : M Client unit :=
  fun c => Ret tt (mkClient (dec c) (tls c) j (stdout c)).

(** The wire texts of [init]. *)
Definition streamHeader (domain : string) : string :=
  "<stream:stream to='" ++ xmlEscape domain ++ "' xmlns='" ++ nsClient ++ "'" ++ LF
  ++ " xmlns:stream='" ++ nsStream ++ "' version='1.0'>" ++ LF.

Definition xmlDecl : string := "<?xml version='1.0'?>" ++ LF.

Definition authPlain (user passwd : string) : string :=
  "<auth xmlns='" ++ nsSASL ++ "' mechanism='PLAIN'>"
  ++ base64_Encode (bytesOf (NUL ++ user ++ NUL ++ passwd)) ++ "</auth>" ++ LF.

Definition bindRequest : string :=
  "<iq type='set' id='x'><bind xmlns='" ++ nsBind ++ "'/></iq>" ++ LF.

Definition initialPresence : string :=
  "<presence xml:lang='en'><show>xa</show><status>I for one welcome our new codebot overlords.</status></presence>".

(** The loop over [f.Mechanisms.Mechanism] that sets [havePlain]. *)
Fixpoint havePlain (mechanism : list string) : bool :=
  match mechanism with
  | [] => false
  | m :: r => if m =? "PLAIN" then true else havePlain r
  end.

(** [&iq.Bind == nil]: the address of a field of a local variable. *)
Definition addrIsNil {A} (field : A) : bool := false.


(** ** [Client.init]

    The body of [init] is cut into its consecutive steps, last step first;
    each step ends by running the next one. *)

(** Resource binding and the initial presence. *)
Definition init_bind : M Client unit :=
  Fprintf bindRequest ;;;
  r <- attempt (onDec (DecodeInto clientIQ.info clientIQ.zero None)) ;;
  match r with
  | inr err => fail (errors_New ("unmarshal <iq>: " ++ Error err))
  | inl iq =>
      if addrIsNil (clientIQ.Bind iq)
      then fail (errors_New "<iq> result missing <bind>")
      else
        setJid (bindBind.Jid (clientIQ.Bind iq)) ;;;
        Fprintf initialPresence
  end.

(** The second features read, into the same variable [f]; its error is
    assigned and never looked at. *)
Definition init_features2 (f : streamFeatures.t) : M Client unit :=
  _ <- attempt (onDec (DecodeInto streamFeatures.info f None)) ;;
  init_bind.

(** The result of authentication and the stream restart.  The error of
    [next] is not looked at: on an error [val] is nil and [name] is the
    zero name, which the type switch sends to its default case. *)
Definition init_restart (domain : string) (f : streamFeatures.t) : M Client unit :=
  r <- attempt (onDec next) ;;
  match r with
  | inl (_, V_saslSuccess _) =>
      Fprintf (streamHeader domain) ;;;
      se <- onDec nextStart ;;
      if negb (Space (se_Name se) =? nsStream) || negb (Local (se_Name se) =? "stream")
      then fail (errors_New ("expected <stream>, got <" ++ Local (se_Name se)
                             ++ "> in " ++ Space (se_Name se)))
      else init_features2 f
  | inl (_, V_saslFailure v) =>
      fail (errors_New ("auth failure: " ++ Local (saslFailure.Any v)))
  | inl (name, _) =>
      fail (errors_New ("expected <success> or <failure>, got <" ++ Local name
                        ++ "> in " ++ Space name))
  | inr _ =>
      fail (errors_New ("expected <success> or <failure>, got <" ++ Local zeroName
                        ++ "> in " ++ Space zeroName))
  end.

(** The mechanism check and the auth element. *)
Definition init_auth (user passwd domain : string) (f : streamFeatures.t)
  : M Client unit :=
  if negb (havePlain (saslMechanisms.Mechanism (streamFeatures.Mechanisms f)))
  then fail (errors_New ("PLAIN authentication is not an option: "
                         ++ fmt_v (saslMechanisms.Mechanism (streamFeatures.Mechanisms f))))
  else
    Fprintf (authPlain user passwd) ;;;
    init_restart domain f.

(** [func (c *Client) init(user, passwd string) error].  The decoder and
    the encoder are taken as already set over the connection; the optional
    copies of the traffic to [DefaultConfig.Debug] are left out. *)
Definition init (user passwd : string) : M Client unit :=
  match SplitN2 user "@" with
  | [user'; domain] =>
      Fprintf (xmlDecl ++ streamHeader domain) ;;;
      se <- onDec nextStart ;;
      if negb (Space (se_Name se) =? nsStream) || negb (Local (se_Name se) =? "stream")
      then fail (errors_New ("xmpp: expected <stream> but got <" ++ Local (se_Name se)
                             ++ "> in " ++ Space (se_Name se)))
      else
        r <- attempt (onDec (DecodeInto streamFeatures.info streamFeatures.zero None)) ;;
        match r with
        | inr err => fail (errors_New ("unmarshal <features>: " ++ Error err))
        | inl f => init_auth user' passwd domain f
        end
  | _ => fail (errors_New ("xmpp: invalid username (want user@domain): " ++ user))
  end.

(** ** [Client.Recv] and [Client.Send] *)

(** The [for] loop of [Recv]; every round reads at least one token. *)
Fixpoint Recv_loop (fuel : nat) : M Client value :=
  match fuel with
  | O => fun _ => OutOfFuel
  | S fuel' =>
      r <- onDec next ;;
      match snd r with
      | V_Message v => ret (V_Message v)
      | V_Presence v => ret (V_Presence v)
      | val => Println val ;;; Recv_loop fuel'
      end
  end.

Definition Recv : M Client value :=
  fun c => Recv_loop (S (length (pending (dec c)))) c.




(** ** Definitions used to state the properties *)

(** The dispatch table as a mapping keyed by the structured
    (name space, local name) pair, with exact field-wise equality: the
    reading of the table that the specification asks for. *)
Definition protoTable : list (Name * value) :=
  [ (mkName nsStream "features", V_streamFeatures streamFeatures.zero);
    (mkName nsStream "error", V_streamError streamError.zero);
    (mkName nsTLS "starttls", V_tlsStartTLS tlsStartTLS.zero);
    (mkName nsTLS "proceed", V_tlsProceed tlsProceed.zero);
    (mkName nsTLS "failure", V_tlsFailure tlsFailure.zero);
    (mkName nsSASL "mechanisms", V_saslMechanisms saslMechanisms.zero);
    (mkName nsSASL "challenge", V_string "");
    (mkName nsSASL "response", V_string "");
    (mkName nsSASL "abort", V_saslAbort saslAbort.zero);
    (mkName nsSASL "success", V_saslSuccess saslSuccess.zero);
    (mkName nsSASL "failure", V_saslFailure saslFailure.zero);
    (mkName nsBind "bind", V_bindBind bindBind.zero);
    (mkName nsClient "message", V_Message Message.zero);
    (mkName nsClient "presence", V_Presence Presence.zero);
    (mkName nsClient "iq", V_clientIQ clientIQ.zero);
    (mkName nsClient "error", V_clientError clientError.zero) ].

Definition Name_eqb (a b : Name) : bool :=
  (Space a =? Space b) && (Local a =? Local b).

Fixpoint lookupName {A} (n : Name) (table : list (Name * A)) : option A :=
  match table with
  | [] => None
  | (k, a) :: r => if Name_eqb n k then Some a else lookupName n r
  end.

(** The string the switch of [next] compares. *)
Definition switchTag (n : Name) : string := Space n ++ " " ++ Local n.

Definition keyed {A} (e : Name * A) : string * A := (switchTag (fst e), snd e).

Fixpoint noSpace (s : string) : bool :=
  match s with
  | EmptyString => true
  | String c r => negb (Ascii.eqb c " ") && noSpace r
  end.

Definition spaceFree (n : Name) : bool := noSpace (Space n) && noSpace (Local n).

Definition isStart (t : Token) : bool :=
  match t with
  | TStartElement _ => true
  | _ => false
  end.

(** The mechanism selector as the specification words it: a decision over
    the advertised mechanisms and a "prefer external" policy flag. *)
Definition spec_selectMechanism (preferExternal : bool) (advertised : list string)
  : option string :=
  if preferExternal && existsb (String.eqb "EXTERNAL") advertised
  then Some "EXTERNAL"
  else if existsb (String.eqb "PLAIN") advertised then Some "PLAIN"
  else None.

(** Sample server streams, as the tokens the decoder delivers. *)
Definition attr (name val : string) : Attr := mkAttr (mkName "" name) val.

Definition startEl (ns l : string) (attrs : list Attr) : Token :=
  TStartElement (mkStart (mkName ns l) attrs).

Definition endEl (ns l : string) : Token := TEndElement (mkName ns l).

Definition srvRoot : list Token :=
  [ TProcInst "xml" "version='1.0'";
    startEl nsStream "stream"
      [ attr "id" "16334887770442657903"; attr "version" "1.0";
        mkAttr (mkName "xmlns" "stream") nsStream; attr "from" "domain";
        attr "xmlns" nsClient ] ].

Definition srvMechanism (m : string) : list Token :=
  [ startEl nsSASL "mechanism" []; TCharData m; endEl nsSASL "mechanism" ].

Definition srvFeatures (mechanisms : list string) : list Token :=
  startEl nsStream "features" []
  :: startEl nsSASL "mechanisms" [attr "xmlns" nsSASL]
  :: flat_map srvMechanism mechanisms
  ++ [ endEl nsSASL "mechanisms"; endEl nsStream "features" ].

Definition srvSuccess : list Token :=
  [ startEl nsSASL "success" [attr "xmlns" nsSASL]; endEl nsSASL "success" ].

Definition srvRestart : list Token :=
  [ startEl nsStream "stream"
      [ attr "id" "16334887770442657904"; attr "version" "1.0";
        mkAttr (mkName "xmlns" "stream") nsStream; attr "from" "domain";
        attr "xmlns" nsClient ] ].

(** A second features block whose [Session] child does not hold a
    boolean: decoding it fails after the block has been read. *)
Definition srvBadFeatures : list Token :=
  [ startEl nsStream "features" [];
    startEl nsStream "Session" []; TCharData "maybe"; endEl nsStream "Session";
    endEl nsStream "features" ].

(** A query result without any bind child. *)
Definition srvIqNoBind : list Token :=
  [ startEl nsClient "iq" [attr "type" "result"; attr "id" "x"];
    endEl nsClient "iq" ].

Definition freshClient (toks : list Token) : Client :=
  mkClient (mkDecoder toks io_EOF) [] "" [].

(** The features value decoded from [srvFeatures l]. *)
Definition mechanismsOf (l : list string) : streamFeatures.t :=
  streamFeatures.mk (mkName nsStream "features") tlsStartTLS.zero
    (saslMechanisms.mk (mkName nsSASL "mechanisms") l) bindBind.zero false.

(** The client after some texts were written and the decoder moved on. *)
Definition wrote (c : Client) (d : Decoder) (texts : list string) : Client :=
  mkClient d (tls c ++ map W_text texts) (jid c) (stdout c).
















(** ** Fuel

    [within d o]: the outcome [o] of a call started on decoder [d] is not
    [OutOfFuel], and the decoder it leaves holds no more pending tokens
    than [d] and reports the same final error. *)
Definition within {A} (d : Decoder) (o : outcome Decoder A) : Prop :=
  match o with
  | Ret _ d' | Fail _ d' | Exit _ d' =>
      length (pending d') <= length (pending d) /\ final d' = final d
  | OutOfFuel => False
  end.

(** An unmarshaller that finishes whenever its fuel exceeds the number of
    pending tokens. *)
Definition bounded {T} (u : unm T) : Prop :=
  forall (fuel : nat) (start : StartElement) (v : T) (d : Decoder),
    length (pending d) < fuel -> within d (u fuel start v d).

Definition boundedFields {T} (fields : list (fieldInfo T)) : Prop :=
  Forall (fun f => bounded (f_unmarshal f)) fields.

(** A call that is not cut short by the fuel. *)
Definition finishes {St A} (o : outcome St A) : Prop := o <> OutOfFuel.

(** ** Definitions used to state further properties *)

(** The five bytes [xmlSpecial] maps. *)
Definition isSpecial (c : ascii) : bool :=
  match xmlSpecial c with
  | Some _ => true
  | None => false
  end.

(** The four bytes that open or close markup or an attribute value. *)
Definition isMarkup (c : ascii) : bool :=
  match nat_of_ascii c with
  | 60 | 62 | 34 | 39 => true
  | _ => false
  end.

Fixpoint allChars (p : ascii -> bool) (s : string) : bool :=
  match s with
  | EmptyString => true
  | String c r => p c && allChars p r
  end.

(** Reading the five entities back: the inverse against which the
    escaping is stated. *)
Definition isEntity (e : string) (cs : list ascii) : bool :=
  String.eqb e (string_of_list_ascii cs).

Fixpoint xmlUnescape (s : string) : string :=
  match s with
  | EmptyString => EmptyString
  | String c r =>
      match r with
      | String c1 (String c2 (String c3 r3)) =>
          if isEntity "&lt;" [c; c1; c2; c3] then String "<" (xmlUnescape r3)
          else if isEntity "&gt;" [c; c1; c2; c3] then String ">" (xmlUnescape r3)
          else
            match r3 with
            | String c4 r4 =>
                if isEntity "&amp;" [c; c1; c2; c3; c4]
                then String "&" (xmlUnescape r4)
                else
                  match r4 with
                  | String c5 r5 =>
                      if isEntity "&quot;" [c; c1; c2; c3; c4; c5]
                      then String (ascii_of_nat 34) (xmlUnescape r5)
                      else if isEntity "&apos;" [c; c1; c2; c3; c4; c5]
                      then String "'" (xmlUnescape r5)
                      else String c (xmlUnescape r)
                  | EmptyString => String c (xmlUnescape r)
                  end
            | EmptyString => String c (xmlUnescape r)
            end
      | _ => String c (xmlUnescape r)
      end
  end.

(** A string in which a given byte does not occur. *)
Definition without (sep : ascii) (s : string) : bool :=
  allChars (fun x => negb (Ascii.eqb x sep)) s.

(** The five texts a complete run of [init] writes, in order. *)
Definition initScript (user passwd : string) : list written :=
  match cut "@" user with
  | Some (u, d) =>
      map W_text [ (xmlDecl ++ streamHeader d)%string; authPlain u passwd;
                   streamHeader d; bindRequest; initialPresence ]
  | None => []
  end.

(** [scripted c script o]: the outcome [o] of a step started in [c] has
    written [script] in full when it returned, and only a proper prefix of
    it, leaving the bound identifier alone, when it failed or ended the
    process; nothing was printed. *)
Definition scripted (c : Client) (script : list written) (o : outcome Client unit)
  : Prop :=
  match o with
  | Ret _ c' => tls c' = tls c ++ script /\ stdout c' = stdout c
  | Fail _ c' | Exit _ c' =>
      (exists k, k < length script /\ tls c' = tls c ++ firstn k script)
      /\ jid c' = jid c /\ stdout c' = stdout c
  | OutOfFuel => False
  end.

(** A server answer refusing the credentials. *)
Definition srvFailure : list Token :=
  [ startEl nsSASL "failure" [attr "xmlns" nsSASL];
    startEl nsSASL "not-authorized" []; endEl nsSASL "not-authorized";
    endEl nsSASL "failure" ].

(** The two kinds of value [init] accepts as the result of
    authentication. *)
Definition isSuccessOrFailure (v : value) : bool :=
  match v with
  | V_saslSuccess _ | V_saslFailure _ => true
  | _ => false
  end.

(** The two kinds of value [Recv] hands to its caller. *)
Definition isStanza (v : value) : bool :=
  match v with
  | V_Message _ | V_Presence _ => true
  | _ => false
  end.


(** The value the dispatch table allocates for the kind of a value. *)
Definition allocated (v : value) : value :=
  match v with
  | V_streamFeatures _ => V_streamFeatures streamFeatures.zero
  | V_streamError _ => V_streamError streamError.zero
  | V_tlsStartTLS _ => V_tlsStartTLS tlsStartTLS.zero
  | V_tlsProceed _ => V_tlsProceed tlsProceed.zero
  | V_tlsFailure _ => V_tlsFailure tlsFailure.zero
  | V_saslMechanisms _ => V_saslMechanisms saslMechanisms.zero
  | V_string _ => V_string ""
  | V_saslAbort _ => V_saslAbort saslAbort.zero
  | V_saslSuccess _ => V_saslSuccess saslSuccess.zero
  | V_saslFailure _ => V_saslFailure saslFailure.zero
  | V_bindBind _ => V_bindBind bindBind.zero
  | V_Message _ => V_Message Message.zero
  | V_Presence _ => V_Presence Presence.zero
  | V_clientIQ _ => V_clientIQ clientIQ.zero
  | V_clientError _ => V_clientError clientError.zero
  end.

(** The [XMLName] field of a value, when it is a struct. *)
Definition XMLNameOf (v : value) : option Name :=
  match v with
  | V_streamFeatures x => Some (streamFeatures.XMLName x)
  | V_streamError x => Some (streamError.XMLName x)
  | V_tlsStartTLS x => Some (tlsStartTLS.XMLName x)
  | V_tlsProceed x => Some (tlsProceed.XMLName x)
  | V_tlsFailure x => Some (tlsFailure.XMLName x)
  | V_saslMechanisms x => Some (saslMechanisms.XMLName x)
  | V_string _ => None
  | V_saslAbort x => Some (saslAbort.XMLName x)
  | V_saslSuccess x => Some (saslSuccess.XMLName x)
  | V_saslFailure x => Some (saslFailure.XMLName x)
  | V_bindBind x => Some (bindBind.XMLName x)
  | V_Message x => Some (Message.XMLName x)
  | V_Presence x => Some (Presence.XMLName x)
  | V_clientIQ x => Some (clientIQ.XMLName x)
  | V_clientError x => Some (clientError.XMLName x)
  end.

(** A query result followed by a chat message. *)
Definition srvIqThenMessage : list Token :=
  srvIqNoBind
  ++ [ startEl nsClient "message" [attr "from" "juliet@example.com"; attr "type" "chat"];
       startEl nsClient "body" []; TCharData "hello"; endEl nsClient "body";
       endEl nsClient "message" ].

(** A field whose loading keeps a property of the enclosing struct. *)
Definition fieldKeeps {T} (P : T -> Prop) (f : fieldInfo T) : Prop :=
  (forall s v, P v -> P (f_setAttr f s v))
  /\ (forall fuel se v d v' d',
         P v -> f_unmarshal f fuel se v d = Ret v' d' -> P v').

(** Standard base64 read back, to state what the auth payload carries. *)
Fixpoint indexOf (c : ascii) (s : string) : nat :=
  match s with
  | EmptyString => 0
  | String x r => if Ascii.eqb x c then 0 else S (indexOf c r)
  end.

Definition unb64 (c : ascii) : nat := indexOf c encodeStd.

Fixpoint base64_Decode (s : string) : list nat :=
  match s with
  | String c1 (String c2 (String c3 (String c4 r))) =>
      let x := unb64 c1 in
      let y := unb64 c2 in
      let z := unb64 c3 in
      let w := unb64 c4 in
      if Ascii.eqb c4 "=" then
        if Ascii.eqb c3 "=" then [x * 4 + y / 16]
        else [x * 4 + y / 16; y mod 16 * 16 + z / 4]
      else x * 4 + y / 16 :: y mod 16 * 16 + z / 4 :: z mod 4 * 64 + w
           :: base64_Decode r
  | _ => []
  end.

(** [Encoding.EncodedLen] of the padded standard encoding. *)
Definition EncodedLen (n : nat) : nat := (n + 2) / 3 * 4.

(** ** [NewClient]

    The calls that leave the program are taken as given: [Env] holds what
    the process environment, [url.Parse] and [net.Dial] answer, and a
    [Conn] what the peer of a dialled connection will do (the proxy's
    response as [http.ReadResponse] reads it, the outcome of the TLS
    handshake and of the host name verification, and the tokens the server
    sends once the session is encrypted). *)
Record Conn : Type := mkConn {
  proxyResponse : (nat * string) + error;
  Handshake : option error;
  VerifyHostname : string -> option error;
  serverStream : Decoder }.

Record Env : Type := mkEnv {
  strings_TrimSpace : string -> string;
  os_Getenv : string -> string;
  url_Parse_Host : string -> string + error;
  net_Dial : string -> Conn + error }.

(** What [NewClient] comes to.  [sentPlain] are the texts written in
    clear on the dialled connection; [closed] tells whether [Close] was
    called before returning the error. *)
Inductive connecting : Type :=
| Connected (c : Client) (sentPlain : list string)
| NotConnected (e : error) (sentPlain : list string) (closed : bool)
| Exited (logged : string) (c : Client) (sentPlain : list string)
| Panicked (msg : string) (sentPlain : list string)
| Unfinished.

(** [strings.LastIndex(s, sep)] for a one-byte separator; [None] is -1. *)
Fixpoint LastIndexFrom (sep : ascii) (s : string) (i : nat) (last : option nat)
  : option nat :=
  match s with
  | EmptyString => last
  | String c r =>
      LastIndexFrom sep r (S i) (if Ascii.eqb c sep then Some i else last)
  end.

Definition LastIndex (s : string) (sep : ascii) : option nat :=
  LastIndexFrom sep s 0 None.

Definition CRLF : string :=
  String (ascii_of_nat 13) (String (ascii_of_nat 10) EmptyString).

(** The value of [host] once the domain of the user name and the default
    port have been filled in (the first two [if] of [NewClient]). *)
Definition hostWithPort (env : Env) (host user : string) : string :=
  let host1 :=
    if strings_TrimSpace env host =? ""
    then match SplitN2 user "@" with
         | [_; domain] => domain
         | _ => host
         end
    else host in
  match SplitN2 host1 ":" with
  | [_] => (host1 ++ ":5222")%string
  | _ => host1
  end.

(** The value of [proxy]. *)
Definition proxyOf (env : Env) : string :=
  if os_Getenv env "HTTP_PROXY" =? "" then os_Getenv env "http_proxy"
  else os_Getenv env "HTTP_PROXY".

(** The value of [addr] handed to [net.Dial]. *)
Definition dialAddr (env : Env) (host : string) : string :=
  if proxyOf env =? "" then host
  else match url_Parse_Host env (proxyOf env) with
       | inl h => h
       | inr _ => host
       end.

(** The value of [host] handed to [VerifyHostname]: the text before the
    last colon, when that colon is not the first byte. *)
Definition hostToVerify (host : string) : string :=
  match LastIndex host ":" with
  | Some (S i) => substring 0 (S i) host
  | _ => host
  end.

Definition connectLines (host : string) : list string :=
  [ ("CONNECT " ++ host ++ " HTTP/1.1" ++ CRLF)%string;
    ("Host: " ++ host ++ CRLF)%string;
    CRLF ].

(** The part of [NewClient] after the proxy exchange: handshake, host name
    verification, and [init] on a new client over the connection. *)
Definition NewClient_secure (conn : Conn) (host user passwd : string)
    (sentPlain : list string) : connecting :=
  match Handshake conn with
  | Some err => NotConnected err sentPlain false
  | None =>
      match VerifyHostname conn (hostToVerify host) with
      | Some err => NotConnected err sentPlain false
      | None =>
          match init user passwd (mkClient (serverStream conn) [] "" []) with
          | Ret _ c => Connected c sentPlain
          | Fail err _ => NotConnected err sentPlain true
          | Exit l c => Exited l c sentPlain
          | OutOfFuel => Unfinished
          end
      end
  end.

(** [func NewClient(host, user, passwd string)], returning a client or an
    error. *)
Definition NewClient (env : Env) (host user passwd : string) : connecting :=
  let host' := hostWithPort env host user in
  match net_Dial env (dialAddr env host) with
  | inr err => NotConnected err [] false
  | inl conn =>
      if proxyOf env =? "" then NewClient_secure conn host' user passwd []
      else
        match proxyResponse conn with
        | inr err => NotConnected err (connectLines host') false
        | inl (StatusCode, Status) =>
            if negb (Nat.eqb StatusCode 200)
            then match SplitN2 Status " " with
                 | [_; reason] =>
                     NotConnected (errors_New reason) (connectLines host') false
                 | _ =>
                     Panicked "runtime error: index out of range [1] with length 1"
                              (connectLines host')
                 end
            else NewClient_secure conn host' user passwd (connectLines host')
        end
  end.

(** A sample environment: no proxy, every address answering with the
    handshake of a server that accepts PLAIN. *)
Definition goodConn : Conn :=
  mkConn (inr io_EOF) None (fun _ => None)
         (mkDecoder (srvRoot ++ srvFeatures ["PLAIN"] ++ srvSuccess ++ srvRestart
                     ++ srvFeatures [] ++ srvIqNoBind) io_EOF).

Definition directEnv : Env :=
  mkEnv TrimSpace (fun _ => "") (fun _ => inr (errors_New "parse"))
        (fun _ => inl goodConn).

(** A sample environment with a proxy that answers 407. *)
Definition proxyEnv : Env :=
  mkEnv TrimSpace
        (fun k => if k =? "http_proxy" then "http://proxy.local:3128" else "")
        (fun _ => inl "proxy.local:3128")
        (fun a => if a =? "proxy.local:3128"
                  then inl (mkConn (inl (407, "407 Proxy Authentication Required"))
                                   None (fun _ => None) (mkDecoder [] io_EOF))
                  else inr (errors_New "dial tcp: no route to host")).

(** A sample environment whose server offers X-OAUTH2 only. *)
Definition oauthOnlyEnv : Env :=
  mkEnv TrimSpace (fun _ => "") (fun _ => inr (errors_New "parse"))
        (fun _ => inl (mkConn (inr io_EOF) None (fun _ => None)
                              (mkDecoder (srvRoot ++ srvFeatures ["X-OAUTH2"]) io_EOF))).

(** An unmarshaller that, whenever it returns a value, has read the rest
    of the element it was started in and nothing more: it leaves the
    decoder where [Skip] would. *)
Definition readsElement {T} (u : unm T) : Prop :=
  forall (fuel : nat) (start : StartElement) (v v' : T) (d d' : Decoder),
    u fuel start v d = Ret v' d' -> Skip d = Ret tt d'.

(** The element fields of a struct all read their element and nothing
    more. *)
Definition readElements {T} (fields : list (fieldInfo T)) : Prop :=
  Forall (fun f => f_attr f = false -> readsElement (f_unmarshal f)) fields.

(** A message followed by a presence. *)
Definition srvMessageThenPresence : list Token :=
  [ startEl nsClient "message" [attr "from" "juliet@example.com"];
    startEl nsClient "body" []; TCharData "hello"; endEl nsClient "body";
    startEl "urn:xmpp:receipts" "request" [];
    startEl "urn:xmpp:receipts" "deep" []; endEl "urn:xmpp:receipts" "deep";
    endEl "urn:xmpp:receipts" "request";
    endEl nsClient "message";
    startEl nsClient "presence" []; endEl nsClient "presence" ].


(** * Properties *)

(** ** The switch of [next] against field-wise lookup *)

Section SwitchTag.

Lemma noSpace_app_space (a b : string) :
  noSpace (a ++ String " "%char b) = false.
Proof.
  induction a as [|c a IH]; simpl.
  - reflexivity.
  - rewrite IH. apply andb_false_r.
Qed.

(** A tag determines the pair it was built from as soon as one side is
    known to be free of the separator. *)
Lemma switchTag_inj (n k : Name) :
  spaceFree k = true -> switchTag n = switchTag k -> n = k.
Proof.
  destruct n as [s1 l1], k as [s2 l2]. unfold spaceFree, switchTag. simpl.
  intros Hk. apply andb_prop in Hk. destruct Hk as [Hs Hl].
  revert s2 Hs. induction s1 as [|c s1 IH]; intros [|d s2] Hs Heq; simpl in *.
  - injection Heq as ->. reflexivity.
  - injection Heq as Hc _. subst d. simpl in Hs. discriminate.
  - injection Heq as Hc Hr. subst l2. rewrite noSpace_app_space in Hl. discriminate.
  - injection Heq as Hc Hr. subst d.
    apply andb_prop in Hs. destruct Hs as [_ Hs].
    specialize (IH s2 Hs Hr). injection IH as -> ->. reflexivity.
Qed.

Lemma Name_eqb_eq (a b : Name) : Name_eqb a b = true <-> a = b.
Proof.
  destruct a as [s1 l1], b as [s2 l2]. unfold Name_eqb. simpl.
  rewrite andb_true_iff, !String.eqb_eq. split.
  - intros [-> ->]. reflexivity.
  - intros H. injection H as -> ->. split; reflexivity.
Qed.

Lemma switchTag_eqb (n k : Name) :
  spaceFree k = true -> (switchTag n =? switchTag k) = Name_eqb n k.
Proof.
  intros Hk. destruct (Name_eqb n k) eqn:E.
  - apply Name_eqb_eq in E. subst. apply String.eqb_refl.
  - apply String.eqb_neq. intros H. apply (switchTag_inj n k Hk) in H.
    apply Name_eqb_eq in H. congruence.
Qed.

Lemma switch_keyed {A} (n : Name) (table : list (Name * A)) :
  forallb (fun e => spaceFree (fst e)) table = true ->
  switch (switchTag n) (map keyed table) = lookupName n table.
Proof.
  induction table as [|[k a] r IH]; simpl; intros H.
  - reflexivity.
  - apply andb_prop in H. destruct H as [Hk Hr].
    rewrite (switchTag_eqb n k Hk). rewrite (IH Hr). reflexivity.
Qed.

Lemma protoCases_keyed : protoCases = map keyed protoTable.
Proof. reflexivity. Qed.

Lemma switch_protoCases (n : Name) :
  switch (switchTag n) protoCases = lookupName n protoTable.
Proof. rewrite protoCases_keyed. apply switch_keyed. reflexivity. Qed.

Lemma lookupName_In {A} (n : Name) (table : list (Name * A)) (a : A) :
  lookupName n table = Some a -> In (n, a) table.
Proof.
  induction table as [|[k b] r IH]; simpl; intros H.
  - discriminate.
  - destruct (Name_eqb n k) eqn:E.
    + apply Name_eqb_eq in E. injection H as ->. left. congruence.
    + right. auto.
Qed.

Lemma In_lookupName {A} (n : Name) (table : list (Name * A)) (a : A) :
  NoDup (map fst table) -> In (n, a) table -> lookupName n table = Some a.
Proof.
  induction table as [|[k b] r IH]; simpl; intros Hnd Hin.
  - contradiction.
  - inversion Hnd as [|? ? Hk Hr]; subst.
    destruct Hin as [Heq | Hin].
    + injection Heq as -> ->.
      replace (Name_eqb n n) with true; [reflexivity|].
      symmetry. apply Name_eqb_eq. reflexivity.
    + destruct (Name_eqb n k) eqn:E.
      * apply Name_eqb_eq in E. subst k. exfalso. apply Hk.
        change n with (fst (n, a)). apply in_map. exact Hin.
      * auto.
Qed.

Lemma protoTable_NoDup : NoDup (map fst protoTable).
Proof.
  simpl. repeat (constructor; [simpl; intuition discriminate|]). constructor.
Qed.

End SwitchTag.

Lemma next_unfold (p p' : Decoder) (se : StartElement) :
  nextStart p = Ret se p' ->
  next p =
  match lookupName (se_Name se) protoTable with
  | Some nv => (x <- DecodeElement nv (Some se) ;; ret (se_Name se, x)) p'
  | None =>
      Fail (errors_New ("unexpected XMPP message " ++ Space (se_Name se)
                        ++ " <" ++ Local (se_Name se) ++ "/>")) p'
  end.
Proof.
  intros H. unfold next, bind at 1. rewrite H.
  fold (switchTag (se_Name se)). rewrite switch_protoCases.
  destruct (lookupName (se_Name se) protoTable); reflexivity.
Qed.

(** C5.  For every start element that [nextStart] hands to [next], the
    switch on the concatenation of name space, separator and local name
    does what a lookup by field-wise equality of the pair does in the
    table keyed by structured pairs: [next] decodes into the value of the
    entry whose name space and local name both equal those of the element,
    and returns its error when there is none.  An entry is selected
    exactly when it stands in the table under the name of the element, and
    the tag of the element equals the tag of an entry only when the two
    names are equal field by field, wherever separators occur in the
    fields of the element. *)
Theorem C5_dispatch_is_fieldwise (p p' : Decoder) (se : StartElement) :
  nextStart p = Ret se p' ->
  next p
  = match lookupName (se_Name se) protoTable with
    | Some nv => (x <- DecodeElement nv (Some se) ;; ret (se_Name se, x)) p'
    | None =>
        Fail (errors_New ("unexpected XMPP message " ++ Space (se_Name se)
                          ++ " <" ++ Local (se_Name se) ++ "/>")) p'
    end
  /\ (forall v : value,
         lookupName (se_Name se) protoTable = Some v
         <-> In (se_Name se, v) protoTable)
  /\ (forall (n : Name) (v : value),
         In (n, v) protoTable ->
         ((Space (se_Name se) ++ " " ++ Local (se_Name se))%string
          = (Space n ++ " " ++ Local n)%string
          <-> Space (se_Name se) = Space n /\ Local (se_Name se) = Local n)).
Proof.
  intros Hstart. split; [exact (next_unfold p Hstart)|]. split.
  - intros v. split.
    + apply lookupName_In.
    + apply In_lookupName. apply protoTable_NoDup.
  - intros n v Hin. split.
    + intros Htag. fold (switchTag (se_Name se)) in Htag. fold (switchTag n) in Htag.
      assert (E : se_Name se = n).
      { apply switchTag_inj; [|exact Htag].
        simpl in Hin.
        repeat (destruct Hin as [Hin | Hin];
                [injection Hin as <- _; reflexivity|]).
        contradiction. }
      rewrite E. split; reflexivity.
    + intros [Hs Hl]. rewrite Hs, Hl. reflexivity.
Qed.

Lemma C5_dispatch_witness :
  next (mkDecoder [TStartElement (mkStart (mkName "jabber:client message" "") []);
                   TEndElement (mkName "jabber:client message" "");
                   TStartElement (mkStart (mkName nsClient "message") []);
                   TEndElement (mkName nsClient "message")] io_EOF)
  = Fail (errors_New "unexpected XMPP message jabber:client message </>")
         (mkDecoder [TEndElement (mkName "jabber:client message" "");
                     TStartElement (mkStart (mkName nsClient "message") []);
                     TEndElement (mkName nsClient "message")] io_EOF)
  /\ next (mkDecoder [TStartElement (mkStart (mkName nsClient "message") []);
                      TEndElement (mkName nsClient "message")] io_EOF)
     = Ret (mkName nsClient "message",
            V_Message (Message.mk (mkName nsClient "message") "" "" "" "" "" "" ""))
           (mkDecoder [] io_EOF).
Proof.
  split.
  - exact (proj1 (@C5_dispatch_is_fieldwise
                    (mkDecoder [TStartElement (mkStart (mkName "jabber:client message" "") []);
                                TEndElement (mkName "jabber:client message" "");
                                TStartElement (mkStart (mkName nsClient "message") []);
                                TEndElement (mkName nsClient "message")] io_EOF)
                    (mkDecoder [TEndElement (mkName "jabber:client message" "");
                                TStartElement (mkStart (mkName nsClient "message") []);
                                TEndElement (mkName nsClient "message")] io_EOF)
                    (mkStart (mkName "jabber:client message" "") [])
                    eq_refl)).
  - exact (proj1 (@C5_dispatch_is_fieldwise
                    (mkDecoder [TStartElement (mkStart (mkName nsClient "message") []);
                                TEndElement (mkName nsClient "message")] io_EOF)
                    (mkDecoder [TEndElement (mkName nsClient "message")] io_EOF)
                    (mkStart (mkName nsClient "message") [])
                    eq_refl)).
Defined.

(** ** The dispatcher on names outside the table and on SASL exchanges *)

(** C6.  When the next start element carries a qualified name that is not
    in the dispatch table, [next] returns an error whose message spells out
    that name space and that local name; the element is not skipped: the
    decoder is left right after its start tag. *)
Theorem C6_unmapped_name_is_an_error (p p' : Decoder) (se : StartElement) :
  nextStart p = Ret se p' ->
  lookupName (se_Name se) protoTable = None ->
  next p = Fail (errors_New ("unexpected XMPP message " ++ Space (se_Name se)
                             ++ " <" ++ Local (se_Name se) ++ "/>")) p'.
Proof.
  intros Hstart Habsent. rewrite (next_unfold p Hstart), Habsent. reflexivity.
Qed.

Lemma C6_unmapped_name_witness :
  next (mkDecoder [TCharData " ";
                   TStartElement (mkStart (mkName "jabber:client message" "") []);
                   TEndElement (mkName "jabber:client message" "")] io_EOF)
  = Fail (errors_New "unexpected XMPP message jabber:client message </>")
         (mkDecoder [TEndElement (mkName "jabber:client message" "")] io_EOF).
Proof.
  apply (C6_unmapped_name_is_an_error
           (mkDecoder [TCharData " ";
                       TStartElement (mkStart (mkName "jabber:client message" "") []);
                       TEndElement (mkName "jabber:client message" "")] io_EOF)
           (se := mkStart (mkName "jabber:client message" "") [])).
  - reflexivity.
  - reflexivity.
Defined.

(** C10.  When the next start element is a SASL challenge or a SASL
    response, [next] returns an error and no decoded value: the table
    allocates a plain string for both names, and [DecodeElement] rejects a
    value that is not a pointer before it reads anything. *)
Theorem C10_challenge_response_never_decode (p p' : Decoder) (se : StartElement) :
  nextStart p = Ret se p' ->
  Space (se_Name se) = nsSASL ->
  Local (se_Name se) = "challenge" \/ Local (se_Name se) = "response" ->
  next p = Fail (errors_New "non-pointer passed to Unmarshal") p'.
Proof.
  intros Hstart Hns Hlocal. rewrite (next_unfold p Hstart).
  destruct se as [[ns l] attrs]. simpl in *. subst ns.
  destruct Hlocal as [-> | ->]; reflexivity.
Qed.

Lemma C10_challenge_response_witness :
  next (mkDecoder [TStartElement (mkStart (mkName nsSASL "challenge") []);
                   TCharData "cmVhbG09InNvbWVyZWFsbSI=";
                   TEndElement (mkName nsSASL "challenge")] io_EOF)
  = Fail (errors_New "non-pointer passed to Unmarshal")
         (mkDecoder [TCharData "cmVhbG09InNvbWVyZWFsbSI=";
                     TEndElement (mkName nsSASL "challenge")] io_EOF).
Proof.
  apply (C10_challenge_response_never_decode
           (mkDecoder [TStartElement (mkStart (mkName nsSASL "challenge") []);
                       TCharData "cmVhbG09InNvbWVyZWFsbSI=";
                       TEndElement (mkName nsSASL "challenge")] io_EOF)
           (se := mkStart (mkName nsSASL "challenge") [])).
  - reflexivity.
  - reflexivity.
  - left. reflexivity.
Defined.

(** ** Read errors in the token scan *)

Lemma nextStart_scan_no_start (toks : list Token) (fin : error) :
  forallb (fun t => negb (isStart t)) toks = true ->
  nextStart_scan toks fin = Exit ("token" ++ Error fin) (mkDecoder [] fin).
Proof.
  induction toks as [|t r IH]; simpl; intros H.
  - reflexivity.
  - apply andb_prop in H. destruct H as [Ht Hr].
    destruct t; simpl in Ht; try discriminate; auto.
Qed.

(** A scan either finds a start element or ends the process; it never
    returns an error value. *)
Lemma nextStart_never_fails (p : Decoder) (e : error) (p' : Decoder) :
  nextStart p <> Fail e p'.
Proof.
  unfold nextStart. destruct p as [toks fin]. simpl.
  induction toks as [|t r IH]; simpl.
  - discriminate.
  - destruct t; try exact IH. discriminate.
Qed.

(** The scan has two outcomes only: a start element, or the end of the
    process with the token error in the log line. *)
Lemma nextStart_outcomes (p : Decoder) :
  match nextStart p with
  | Ret _ _ => True
  | Exit l _ => l = ("token" ++ Error (final p))%string
  | Fail _ _ => False
  | OutOfFuel => False
  end.
Proof.
  unfold nextStart. destruct p as [toks fin]. cbn [pending final].
  induction toks as [|t r IH]; simpl.
  - reflexivity.
  - destruct t; try exact IH. exact I.
Qed.

(** C2.  Evaluation of the code at a read failure in the token scan: for
    every error [fin] that [Token] reports on a stream with no further
    start element, [nextStart] ends the process through [log.Fatal]; so do
    [next], [Recv] and [init] above it.  On no decoder at all does
    [nextStart] return an error value to its caller. *)
Theorem C2_read_failure_ends_the_process (fin : error) (c : Client) :
  nextStart (mkDecoder [] fin)
  = Exit ("token" ++ Error fin) (mkDecoder [] fin)
  /\ next (mkDecoder [] fin)
     = Exit ("token" ++ Error fin) (mkDecoder [] fin)
  /\ Recv (mkClient (mkDecoder [] fin) (tls c) (jid c) (stdout c))
     = Exit ("token" ++ Error fin)
            (mkClient (mkDecoder [] fin) (tls c) (jid c) (stdout c))
  /\ init "user@domain" "secret" (mkClient (mkDecoder [] fin) (tls c) (jid c) (stdout c))
     = Exit ("token" ++ Error fin)
            (mkClient (mkDecoder [] fin)
                      (tls c ++ [W_text (xmlDecl ++ streamHeader "domain")])
                      (jid c) (stdout c))
  /\ (forall p : Decoder,
         match nextStart p with
         | Ret _ _ => True
         | Exit l _ => l = ("token" ++ Error (final p))%string
         | Fail _ _ => False
         | OutOfFuel => False
         end).
Proof.
  split; [reflexivity|]. split; [reflexivity|]. split; [reflexivity|].
  split; [reflexivity|]. apply nextStart_outcomes.
Qed.

(** C4.  Evaluation of the code on a transport that is closed before any
    byte arrives: the first [Token] call reports [io.EOF], and [Recv] does
    not return it; the process ends in [log.Fatal] with the line
    ["tokenEOF"].  The same happens when the stream ends after text that
    holds no start element. *)
Theorem C4_Recv_on_empty_transport (w : list written) (j : string) (o : list value) :
  Recv (mkClient (mkDecoder [] io_EOF) w j o)
  = Exit "tokenEOF" (mkClient (mkDecoder [] io_EOF) w j o)
  /\ Recv (mkClient (mkDecoder [TProcInst "xml" "version='1.0'"; TCharData LF] io_EOF)
                    w j o)
     = Exit "tokenEOF" (mkClient (mkDecoder [] io_EOF) w j o).
Proof.
  split.
  - reflexivity.
  - unfold Recv. cbn [Recv_loop]. unfold bind, onDec, next, nextStart. simpl.
    reflexivity.
Qed.

(** ** Negotiation *)

Lemma havePlain_In (l : list string) : havePlain l = true <-> In "PLAIN" l.
Proof.
  induction l as [|m r IH]; simpl.
  - split; [discriminate | contradiction].
  - destruct (m =? "PLAIN") eqn:E.
    + apply String.eqb_eq in E. split; auto.
    + apply String.eqb_neq in E. rewrite IH. split; auto.
      intros [H | H]; [contradiction | exact H].
Qed.

Lemma existsb_eqb_In (x : string) (l : list string) :
  existsb (String.eqb x) l = true <-> In x l.
Proof.
  rewrite existsb_exists. split.
  - intros [y [Hy E]]. apply String.eqb_eq in E. subst. exact Hy.
  - intros H. exists x. split; [exact H | apply String.eqb_refl].
Qed.

Lemma havePlain_existsb (l : list string) :
  havePlain l = existsb (String.eqb "PLAIN") l.
Proof.
  destruct (havePlain l) eqn:E; symmetry.
  - apply existsb_eqb_In, havePlain_In, E.
  - destruct (existsb (String.eqb "PLAIN") l) eqn:E'; [|reflexivity].
    apply existsb_eqb_In, havePlain_In in E'. congruence.
Qed.

Lemma init_auth_plain (user passwd domain : string) (f : streamFeatures.t)
    (c : Client) :
  In "PLAIN" (saslMechanisms.Mechanism (streamFeatures.Mechanisms f)) ->
  init_auth user passwd domain f c
  = init_restart domain f (wrote c (dec c) [authPlain user passwd]).
Proof.
  intros H. unfold init_auth. apply havePlain_In in H. rewrite H. reflexivity.
Qed.

(** C1, as the code has it.  The selection in [init] looks at the
    advertised mechanisms only.  When PLAIN is among them the next thing
    written is the PLAIN auth element; when it is not, [init] returns its
    error with the client unchanged, so nothing has been written for
    authentication.  This is the choice of the specified selector whenever
    the policy flag is off or EXTERNAL is not advertised. *)
Theorem C1_selection_is_PLAIN_or_error
    (user passwd domain : string) (f : streamFeatures.t) (c : Client) :
  let advertised := saslMechanisms.Mechanism (streamFeatures.Mechanisms f) in
  (In "PLAIN" advertised ->
   init_auth user passwd domain f c
   = init_restart domain f
       (mkClient (dec c) (tls c ++ [W_text (authPlain user passwd)]) (jid c) (stdout c)))
  /\ (~ In "PLAIN" advertised ->
      init_auth user passwd domain f c
      = Fail (errors_New ("PLAIN authentication is not an option: "
                          ++ fmt_v advertised)) c)
  /\ (forall preferExternal : bool,
         preferExternal = false \/ ~ In "EXTERNAL" advertised ->
         spec_selectMechanism preferExternal advertised
         = if havePlain advertised then Some "PLAIN" else None).
Proof.
  intros advertised. split; [|split]; [| unfold init_auth; fold advertised |].
  - intros H. apply (init_auth_plain user passwd domain f c H).
  - intros H. destruct (havePlain advertised) eqn:E.
    + apply havePlain_In in E. contradiction.
    + reflexivity.
  - intros p Hp. unfold spec_selectMechanism.
    rewrite <- havePlain_existsb.
    destruct Hp as [-> | Hno]; [reflexivity|].
    destruct (existsb (String.eqb "EXTERNAL") advertised) eqn:E.
    + apply existsb_eqb_In in E. contradiction.
    + rewrite andb_false_r. reflexivity.
Qed.

Lemma C1_selection_witness :
  init_auth "user" "invalid" "domain" (mechanismsOf ["PLAIN"; "X-OAUTH2"])
            (freshClient srvSuccess)
  = init_restart "domain" (mechanismsOf ["PLAIN"; "X-OAUTH2"])
      (mkClient (mkDecoder srvSuccess io_EOF)
                [W_text (authPlain "user" "invalid")] "" [])
  /\ init_auth "user" "invalid" "domain" (mechanismsOf ["X-OAUTH2"]) (freshClient [])
     = Fail (errors_New "PLAIN authentication is not an option: [X-OAUTH2]")
            (freshClient [])
  /\ spec_selectMechanism true ["PLAIN"; "X-OAUTH2"] = Some "PLAIN".
Proof.
  split; [|split].
  - apply (proj1 (C1_selection_is_PLAIN_or_error
                    "user" "invalid" "domain" (mechanismsOf ["PLAIN"; "X-OAUTH2"])
                    (freshClient srvSuccess))).
    simpl. left. reflexivity.
  - apply (proj1 (proj2 (C1_selection_is_PLAIN_or_error
                           "user" "invalid" "domain" (mechanismsOf ["X-OAUTH2"])
                           (freshClient [])))).
    simpl. intros [H | H]; [discriminate H | exact H].
  - apply (proj2 (proj2 (C1_selection_is_PLAIN_or_error
                           "user" "invalid" "domain" (mechanismsOf ["PLAIN"; "X-OAUTH2"])
                           (freshClient []))) true).
    right. simpl. intros [H | [H | H]]; [discriminate H | discriminate H | exact H].
Defined.

(** C1 as stated fails on the code.  With EXTERNAL, PLAIN and X-OAUTH2
    advertised and external authentication preferred, the specified
    selector answers EXTERNAL; [init] has no policy argument and, on a
    server advertising exactly these mechanisms, writes the PLAIN auth
    element. *)
Lemma C1_counterexample :
  spec_selectMechanism true ["EXTERNAL"; "PLAIN"; "X-OAUTH2"] = Some "EXTERNAL"
  /\ init "user@domain" "invalid"
       (freshClient (srvRoot ++ srvFeatures ["EXTERNAL"; "PLAIN"; "X-OAUTH2"]
                     ++ srvSuccess ++ srvRestart ++ srvFeatures [] ++ srvIqNoBind))
     = Ret tt (mkClient (mkDecoder [] io_EOF)
                        [ W_text (xmlDecl ++ streamHeader "domain");
                          W_text (authPlain "user" "invalid");
                          W_text (streamHeader "domain");
                          W_text bindRequest;
                          W_text initialPresence ] "" [])
  /\ authPlain "user" "invalid"
     = ("<auth xmlns='urn:ietf:params:xml:ns:xmpp-sasl' mechanism='PLAIN'>"
        ++ "AHVzZXIAaW52YWxpZA==</auth>" ++ LF)%string
  /\ spec_selectMechanism true ["EXTERNAL"; "PLAIN"; "X-OAUTH2"]
     <> (if havePlain ["EXTERNAL"; "PLAIN"; "X-OAUTH2"] then Some "PLAIN" else None).
Proof.
  split; [reflexivity|]. split; [vm_compute; reflexivity|].
  split; [vm_compute; reflexivity|]. vm_compute. discriminate.
Qed.

Lemma init_reaches_features (user passwd u domain : string) (c : Client)
    (se : StartElement) (d1 : Decoder) :
  cut "@" user = Some (u, domain) ->
  nextStart (dec c) = Ret se d1 ->
  se_Name se = mkName nsStream "stream" ->
  init user passwd c
  = (r <- attempt (onDec (DecodeInto streamFeatures.info streamFeatures.zero None)) ;;
     match r with
     | inr err => fail (errors_New ("unmarshal <features>: " ++ Error err))
     | inl f => init_auth u passwd domain f
     end) (wrote c d1 [(xmlDecl ++ streamHeader domain)%string]).
Proof.
  intros Hcut Hstart Hname.
  unfold init, SplitN2. rewrite Hcut.
  unfold bind at 1. unfold Fprintf at 1.
  unfold bind at 1. unfold onDec at 1. simpl dec. rewrite Hstart.
  rewrite Hname. reflexivity.
Qed.

Lemma init_restart_reaches_features2 (domain : string) (f : streamFeatures.t)
    (c : Client) (n : Name) (s : saslSuccess.t) (d3 d4 : Decoder)
    (se : StartElement) :
  next (dec c) = Ret (n, V_saslSuccess s) d3 ->
  nextStart d3 = Ret se d4 ->
  se_Name se = mkName nsStream "stream" ->
  init_restart domain f c
  = init_features2 f (wrote c d4 [streamHeader domain]).
Proof.
  intros Hnext Hstart Hname.
  unfold init_restart. unfold bind at 1. unfold attempt at 1. unfold onDec at 1.
  rewrite Hnext. unfold bind at 1. unfold Fprintf at 1.
  unfold bind at 1. unfold onDec at 1. simpl dec. rewrite Hstart.
  rewrite Hname. reflexivity.
Qed.

Lemma init_features2_any (f : streamFeatures.t) (c : Client) (d5 : Decoder) :
  (exists e, DecodeInto streamFeatures.info f None (dec c) = Fail e d5)
  \/ (exists f', DecodeInto streamFeatures.info f None (dec c) = Ret f' d5) ->
  init_features2 f c = init_bind (wrote c d5 []).
Proof.
  intros H. unfold init_features2, wrote. simpl. rewrite app_nil_r.
  unfold bind at 1. unfold attempt, onDec.
  destruct H as [[e H] | [f' H]]; rewrite H; reflexivity.
Qed.



(** After the tolerated failure the handshake of the sample stream ends
    successfully. *)
Example init_after_bad_second_features :
  init "user@domain" "invalid"
       (freshClient (srvRoot ++ srvFeatures ["PLAIN"] ++ srvSuccess ++ srvRestart
                     ++ srvBadFeatures ++ srvIqNoBind))
  = Ret tt (mkClient (mkDecoder [] io_EOF)
                     [ W_text (xmlDecl ++ streamHeader "domain");
                       W_text (authPlain "user" "invalid");
                       W_text (streamHeader "domain");
                       W_text bindRequest;
                       W_text initialPresence ] "" []).
Proof. vm_compute. reflexivity. Qed.

(** ** Resource binding *)

(** Whatever query element is decoded, the bind step accepts it: the test
    on the address of the [Bind] field never holds. *)
Lemma init_bind_accepts (c : Client) (iq : clientIQ.t) (d : Decoder) :
  DecodeInto clientIQ.info clientIQ.zero None (dec c) = Ret iq d ->
  init_bind c
  = Ret tt (mkClient d (tls c ++ [W_text bindRequest; W_text initialPresence])
                     (bindBind.Jid (clientIQ.Bind iq)) (stdout c)).
Proof.
  intros H. unfold init_bind. unfold bind at 1. unfold Fprintf at 1.
  unfold bind at 1. unfold attempt at 1. unfold onDec at 1. simpl dec. rewrite H.
  unfold addrIsNil, bind, setJid, Fprintf. simpl.
  rewrite <- app_assoc. reflexivity.
Qed.

(** The only error the bind step returns is a decoding error. *)
Lemma init_bind_outcomes (c : Client) :
  match init_bind c with
  | Fail e _ => exists err, e = errors_New ("unmarshal <iq>: " ++ Error err)
  | _ => True
  end.
Proof.
  unfold init_bind. unfold bind at 1. unfold Fprintf at 1.
  unfold bind at 1. unfold attempt at 1. unfold onDec at 1. simpl dec.
  destruct (DecodeInto clientIQ.info clientIQ.zero None (dec c))
    as [iq d | e d | l d |]; simpl; auto.
  exists e. reflexivity.
Qed.

(** C8.  Evaluation of the code on a handshake whose query result carries
    no bind child: [init] does not fail; it returns nil with the bound
    identifier set to the empty string, having sent the initial presence.
    On no input does the bind step return the error for a missing bind
    outcome: the only error it returns is that of decoding the query. *)
Theorem C8_missing_bind_is_accepted :
  init "user@domain" "invalid"
       (freshClient (srvRoot ++ srvFeatures ["PLAIN"] ++ srvSuccess ++ srvRestart
                     ++ srvFeatures [] ++ srvIqNoBind))
  = Ret tt (mkClient (mkDecoder [] io_EOF)
                     [ W_text (xmlDecl ++ streamHeader "domain");
                       W_text (authPlain "user" "invalid");
                       W_text (streamHeader "domain");
                       W_text bindRequest;
                       W_text initialPresence ] "" [])
  /\ (forall c : Client,
         match init_bind c with
         | Fail e _ => exists err, e = errors_New ("unmarshal <iq>: " ++ Error err)
         | _ => True
         end).
Proof.
  split; [vm_compute; reflexivity | apply init_bind_outcomes].
Qed.

(** ** Children that no field models *)

Section Children.

Context {T : Type} (fields : list (fieldInfo T)).



End Children.






(** ** Encoding followed by decoding *)








(** ** Adequacy of the fuel

    Every loop of the model is given more fuel than there are pending
    tokens and reads at least one token per round, so no call of
    [DecodeElement], [next], [Recv] or [init] is cut short. *)

Lemma within_trans {A} (d d' : Decoder) (o : outcome Decoder A) :
  length (pending d') <= length (pending d) -> final d' = final d ->
  within d' o -> within d o.
Proof.
  intros Hlen Hfin. destruct o; simpl; try tauto; intros [H1 H2]; split;
    try lia; congruence.
Qed.

Lemma within_bind {A B} (m : M Decoder A) (k : A -> M Decoder B) (d : Decoder) :
  within d (m d) ->
  (forall a d', m d = Ret a d' -> within d' (k a d')) ->
  within d (bind m k d).
Proof.
  intros Hm Hk. unfold bind. destruct (m d) as [a d'| e d' | l d' |] eqn:E;
    simpl in Hm; try exact Hm.
  destruct Hm as [Hlen Hfin].
  apply (within_trans d d' _ Hlen Hfin). apply Hk. reflexivity.
Qed.

Lemma within_skipFrom (fin : error) :
  forall (toks : list Token) (depth : nat),
    within (mkDecoder toks fin) (skipFrom depth toks fin).
Proof.
  induction toks as [|t r IH]; intros depth; simpl.
  - auto.
  - assert (Hstep : forall k, within (mkDecoder (t :: r) fin) (skipFrom k r fin)).
    { intros k. apply (within_trans _ (mkDecoder r fin)); simpl; auto. }
    destruct t; auto.
    destruct depth; [simpl; auto | apply Hstep].
Qed.

Lemma within_findStart (fin : error) :
  forall toks : list Token,
    match findStart toks fin with
    | Ret _ d' => length (pending d') < length toks /\ final d' = fin
    | o => within (mkDecoder toks fin) o
    end.
Proof.
  induction toks as [|t r IH]; simpl.
  - auto.
  - destruct t; simpl; auto;
      destruct (findStart r fin); simpl in *; intuition lia.
Qed.

Lemma bounded_findEnd {T} (fields : list (fieldInfo T)) (saveData : bool) :
  boundedFields fields ->
  forall (fuel : nat) (v : T) (data : string) (d : Decoder),
    length (pending d) < fuel ->
    within d (findEnd fields saveData fuel v data d).
Proof.
  intros Hfields. induction fuel as [|fuel IH]; intros v data d Hlen.
  - inversion Hlen.
  - destruct d as [[|t r] fin].
    + simpl. auto.
    + simpl in Hlen. apply PeanoNat.lt_S_n in Hlen.
      assert (Hnext : forall o : outcome Decoder (T * string),
                 within (mkDecoder r fin) o -> within (mkDecoder (t :: r) fin) o).
      { intros o. apply within_trans; simpl; auto. }
      cbn [findEnd]. unfold bind at 1. unfold Token_ at 1. cbn [pending final].
      destruct t; try (apply Hnext, IH; exact Hlen).
      * destruct (unmarshalPath fields se) as [f|] eqn:Hpath.
        -- apply Hnext. apply within_bind.
           ++ unfold unmarshalPath in Hpath. apply find_some in Hpath.
              destruct Hpath as [Hin _].
              unfold boundedFields in Hfields. rewrite Forall_forall in Hfields.
              apply (Hfields f Hin). exact Hlen.
           ++ intros v' d' E. apply IH.
              unfold unmarshalPath in Hpath. apply find_some in Hpath.
              destruct Hpath as [Hin _].
              unfold boundedFields in Hfields. rewrite Forall_forall in Hfields.
              pose proof (Hfields f Hin fuel se v (mkDecoder r fin) Hlen) as Hw.
              rewrite E in Hw. simpl in Hw. simpl. lia.
        -- apply Hnext. apply within_bind.
           ++ apply within_skipFrom.
           ++ intros [] d' E. apply IH.
              pose proof (within_skipFrom fin r 0) as Hw.
              unfold Skip in E. simpl in E. rewrite E in Hw. simpl in Hw. lia.
      * simpl. auto.
Qed.

Lemma bounded_unmarshalStruct {T} (ti : typeInfo T) :
  boundedFields (ti_fields ti) -> bounded (unmarshalStruct ti).
Proof.
  intros Hfields fuel start v d Hlen. unfold unmarshalStruct.
  destruct (negb (ti_name ti =? "") && negb (ti_name ti =? Local (se_Name start)));
    [simpl; auto|].
  destruct (negb (ti_xmlns ti =? "") && negb (ti_xmlns ti =? Space (se_Name start)));
    [simpl; auto|].
  apply within_bind.
  - apply bounded_findEnd; assumption.
  - intros a d' _. simpl. auto.
Qed.

Lemma boundedFields_nil {T} : boundedFields (@nil (fieldInfo T)).
Proof. constructor. Qed.

Lemma bounded_unmarshalString : bounded unmarshalString.
Proof.
  intros fuel start v d Hlen. unfold unmarshalString. apply within_bind.
  - apply bounded_findEnd; [apply boundedFields_nil | exact Hlen].
  - intros a d' _. simpl. auto.
Qed.

Lemma bounded_unmarshalBool : bounded unmarshalBool.
Proof.
  intros fuel start v d Hlen. unfold unmarshalBool. apply within_bind.
  - apply bounded_findEnd; [apply boundedFields_nil | exact Hlen].
  - intros a d' _. destruct (snd a =? ""); [simpl; auto|].
    destruct (ParseBool (TrimSpace (snd a))); simpl; auto.
Qed.

Lemma bounded_unmarshalStrings : bounded unmarshalStrings.
Proof.
  intros fuel start v d Hlen. unfold unmarshalStrings. apply within_bind.
  - apply bounded_unmarshalString. exact Hlen.
  - intros a d' _. simpl. auto.
Qed.

Lemma bounded_unmarshalName : bounded unmarshalName.
Proof.
  intros fuel start v d Hlen. unfold unmarshalName. apply within_bind.
  - apply bounded_findEnd; [apply boundedFields_nil | exact Hlen].
  - intros a d' _. simpl. auto.
Qed.

Lemma bounded_unmarshalPtr {U} (zero : U) (u : unm U) :
  bounded u -> bounded (unmarshalPtr zero u).
Proof.
  intros Hu fuel start v d Hlen. unfold unmarshalPtr. apply within_bind.
  - apply Hu. exact Hlen.
  - intros a d' _. simpl. auto.
Qed.

Lemma bounded_onField {T U} (get : T -> U) (set : U -> T -> T) (u : unm U) :
  bounded u -> bounded (onField get set u).
Proof.
  intros Hu fuel start v d Hlen. unfold onField. apply within_bind.
  - apply Hu. exact Hlen.
  - intros a d' _. simpl. auto.
Qed.

Lemma bounded_noUnmarshal {T} : bounded (@noUnmarshal T).
Proof. intros fuel start v d Hlen. simpl. auto. Qed.

Create HintDb fuel.

#[local] Hint Resolve bounded_unmarshalStruct bounded_unmarshalString
  bounded_unmarshalBool bounded_unmarshalStrings bounded_unmarshalName
  bounded_unmarshalPtr bounded_onField bounded_noUnmarshal : fuel.

Ltac fields_bounded :=
  unfold boundedFields; simpl;
  repeat (apply Forall_cons; [simpl; auto 6 with fuel|]);
  apply Forall_nil.

Lemma bounded_tlsStartTLS : boundedFields (ti_fields tlsStartTLS.info).
Proof. fields_bounded. Qed.

Lemma bounded_saslMechanisms : boundedFields (ti_fields saslMechanisms.info).
Proof. fields_bounded. Qed.

Lemma bounded_saslFailure : boundedFields (ti_fields saslFailure.info).
Proof. fields_bounded. Qed.

Lemma bounded_bindBind : boundedFields (ti_fields bindBind.info).
Proof. fields_bounded. Qed.

Lemma bounded_streamError : boundedFields (ti_fields streamError.info).
Proof. fields_bounded. Qed.

Lemma bounded_clientError : boundedFields (ti_fields clientError.info).
Proof. fields_bounded. Qed.

Lemma bounded_Message : boundedFields (ti_fields Message.info).
Proof. fields_bounded. Qed.

#[local] Hint Resolve bounded_tlsStartTLS bounded_saslMechanisms bounded_saslFailure
  bounded_bindBind bounded_streamError bounded_clientError bounded_Message
  boundedFields_nil : fuel.

Lemma bounded_streamFeatures : boundedFields (ti_fields streamFeatures.info).
Proof. fields_bounded. Qed.

Lemma bounded_Presence : boundedFields (ti_fields Presence.info).
Proof. fields_bounded. Qed.

Lemma bounded_clientIQ : boundedFields (ti_fields clientIQ.info).
Proof. fields_bounded. Qed.

#[local] Hint Resolve bounded_streamFeatures bounded_Presence bounded_clientIQ : fuel.

Lemma within_DecodeInto {T} (ti : typeInfo T) (v : T) (start : option StartElement)
    (d : Decoder) :
  boundedFields (ti_fields ti) -> within d (DecodeInto ti v start d).
Proof.
  intros Hfields. unfold DecodeInto. destruct start as [se|].
  - apply bounded_unmarshalStruct; [exact Hfields | lia].
  - unfold bind. destruct d as [toks fin]. cbn [pending final].
    pose proof (within_findStart fin toks) as Hs.
    destruct (findStart toks fin) as [se d' | e d' | l d' |]; try exact Hs.
    destruct Hs as [Hlen Hfin].
    apply (within_trans (mkDecoder toks fin) d'); [simpl; lia | exact Hfin |].
    apply bounded_unmarshalStruct; [exact Hfields | simpl; lia].
Qed.

Lemma within_DecodeElement (nv : value) (start : option StartElement) (d : Decoder) :
  within d (DecodeElement nv start d).
Proof.
  destruct nv; unfold DecodeElement;
    try (apply within_bind;
         [apply within_DecodeInto; auto with fuel | intros a d' _; simpl; auto]).
  simpl. auto.
Qed.

Lemma nextStart_consumes (p p' : Decoder) (se : StartElement) :
  nextStart p = Ret se p' ->
  length (pending p') < length (pending p) /\ final p' = final p.
Proof.
  unfold nextStart. destruct p as [toks fin]. cbn [pending final].
  induction toks as [|t r IH]; simpl.
  - discriminate.
  - destruct t; try (intros H; destruct (IH H); split; [lia | assumption]).
    intros H. injection H as _ <-. simpl. split; [lia | reflexivity].
Qed.

Lemma nextStart_finishes (p : Decoder) : finishes (nextStart p).
Proof.
  unfold finishes, nextStart. destruct p as [toks fin]. cbn [pending final].
  induction toks as [|t r IH]; simpl.
  - discriminate.
  - destruct t; try exact IH. discriminate.
Qed.

(** [next] is never cut short, and when it returns at all (a value or an
    error) it has read at least the start tag. *)
Lemma next_consumes (p : Decoder) :
  match next p with
  | Ret _ p' | Fail _ p' => length (pending p') < length (pending p)
  | Exit _ _ => True
  | OutOfFuel => False
  end.
Proof.
  destruct (nextStart p) as [se p1 | e p1 | l p1 |] eqn:E.
  - rewrite (next_unfold p E). destruct (nextStart_consumes p E) as [Hlen _].
    destruct (lookupName (se_Name se) protoTable) as [nv|]; [|exact Hlen].
    unfold bind.
    pose proof (within_DecodeElement nv (Some se) p1) as Hw.
    destruct (DecodeElement nv (Some se) p1); simpl in *; try tauto; lia.
  - exfalso. exact (nextStart_never_fails p E).
  - unfold next, bind. rewrite E. exact I.
  - exfalso. exact (nextStart_finishes p E).
Qed.

Lemma Recv_loop_finishes :
  forall (fuel : nat) (c : Client),
    length (pending (dec c)) < fuel -> finishes (Recv_loop fuel c).
Proof.
  induction fuel as [|fuel IH]; intros c Hlen.
  - inversion Hlen.
  - cbn [Recv_loop]. unfold bind at 1. unfold onDec at 1.
    pose proof (next_consumes (dec c)) as Hn.
    destruct (next (dec c)) as [[n v] d | e d | l d |]; try discriminate.
    + assert (Hrec : finishes ((Println v ;;; Recv_loop fuel)
                                 (mkClient d (tls c) (jid c) (stdout c)))).
      { unfold bind, Println. apply IH. simpl. lia. }
      destruct v; try exact Hrec; discriminate.
    + contradiction.
Qed.

(** [Recv] always comes to an outcome: a stanza, an error, or the end of
    the process. *)
Theorem Recv_finishes (c : Client) : finishes (Recv c).
Proof. unfold Recv. apply Recv_loop_finishes. lia. Qed.

Lemma finishes_bind {St A B} (m : M St A) (k : A -> M St B) (s : St) :
  finishes (m s) ->
  (forall a s', m s = Ret a s' -> finishes (k a s')) ->
  finishes (bind m k s).
Proof.
  unfold finishes, bind. intros Hm Hk.
  destruct (m s) as [a s' | e s' | l s' |]; try discriminate.
  - apply (Hk a s'). reflexivity.
  - contradiction.
Qed.

Lemma finishes_attempt {St A} (m : M St A) (s : St) :
  finishes (m s) -> finishes (attempt m s).
Proof.
  unfold finishes, attempt. destruct (m s); try discriminate. auto.
Qed.

Lemma finishes_onDec {A} (m : M Decoder A) (c : Client) :
  finishes (m (dec c)) -> finishes (onDec m c).
Proof.
  unfold finishes, onDec. destruct (m (dec c)); try discriminate. auto.
Qed.

Lemma finishes_within {A} (d : Decoder) (o : outcome Decoder A) :
  within d o -> finishes o.
Proof. unfold finishes. destruct o; simpl; try discriminate. tauto. Qed.

Lemma finishes_DecodeInto {T} (ti : typeInfo T) (v : T) (start : option StartElement)
    (c : Client) :
  boundedFields (ti_fields ti) ->
  finishes (attempt (onDec (DecodeInto ti v start)) c).
Proof.
  intros H. apply finishes_attempt, finishes_onDec.
  apply (finishes_within (dec c)). apply within_DecodeInto. exact H.
Qed.

Lemma finishes_next (c : Client) : finishes (attempt (onDec next) c).
Proof.
  apply finishes_attempt, finishes_onDec. unfold finishes.
  pose proof (next_consumes (dec c)) as H.
  destruct (next (dec c)); try discriminate. contradiction.
Qed.

Lemma init_bind_finishes (c : Client) : finishes (init_bind c).
Proof.
  unfold init_bind. apply finishes_bind; [discriminate|]. intros _ c1 _.
  apply finishes_bind; [apply finishes_DecodeInto; auto with fuel|].
  intros [iq | e] c2 _; [|discriminate].
  unfold addrIsNil. apply finishes_bind; [discriminate|].
  intros _ c3 _. discriminate.
Qed.

Lemma init_restart_finishes (domain : string) (f : streamFeatures.t) (c : Client) :
  finishes (init_restart domain f c).
Proof.
  unfold init_restart. apply finishes_bind; [apply finishes_next|].
  intros [[n v] | e] c1 _; [|discriminate].
  destruct v; try discriminate.
  apply finishes_bind; [discriminate|]. intros _ c2 _.
  apply finishes_bind; [apply finishes_onDec, nextStart_finishes|].
  intros se c3 _.
  destruct (negb (Space (se_Name se) =? nsStream)
            || negb (Local (se_Name se) =? "stream")); [discriminate|].
  unfold init_features2.
  apply finishes_bind; [apply finishes_DecodeInto; auto with fuel|].
  intros _ c4 _. apply init_bind_finishes.
Qed.

(** [init] always comes to an outcome: nil, an error, or the end of the
    process. *)
Theorem init_finishes (user passwd : string) (c : Client) :
  finishes (init user passwd c).
Proof.
  unfold init, SplitN2. destruct (cut "@" user) as [[u domain]|]; [|discriminate].
  apply finishes_bind; [discriminate|]. intros _ c1 _.
  apply finishes_bind; [apply finishes_onDec, nextStart_finishes|].
  intros se c2 _.
  destruct (negb (Space (se_Name se) =? nsStream)
            || negb (Local (se_Name se) =? "stream")); [discriminate|].
  apply finishes_bind; [apply finishes_DecodeInto; auto with fuel|].
  intros [f | e] c3 _; [|discriminate].
  unfold init_auth.
  destruct (negb (havePlain (saslMechanisms.Mechanism (streamFeatures.Mechanisms f))));
    [discriminate|].
  apply finishes_bind; [discriminate|]. intros _ c4 _.
  apply init_restart_finishes.
Qed.

(** ** [xmlEscape] *)

Lemma xmlSpecial_cases (c : ascii) :
  (xmlSpecial c = None /\ isMarkup c = false /\ (c =? "&")%char = false)
  \/ (c = "<"%char) \/ (c = ">"%char) \/ (c = ascii_of_nat 34)
  \/ (c = "'"%char) \/ (c = "&"%char).
Proof.
  destruct c as [[] [] [] [] [] [] [] []]; vm_compute; auto 10.
Qed.

Lemma xmlEscape_app (a b : string) :
  xmlEscape (a ++ b) = (xmlEscape a ++ xmlEscape b)%string.
Proof.
  induction a as [|c a IH]; simpl.
  - reflexivity.
  - rewrite IH. destruct (xmlSpecial c) as [e|]; simpl.
    + induction e as [|x e IHe]; simpl; [reflexivity | rewrite IHe; reflexivity].
    + reflexivity.
Qed.

Lemma allChars_app (p : ascii -> bool) (a b : string) :
  allChars p (a ++ b) = allChars p a && allChars p b.
Proof.
  induction a as [|c a IH]; simpl.
  - reflexivity.
  - rewrite IH. apply andb_assoc.
Qed.

(** X1.  Whatever the input, the output of [xmlEscape] holds none of the
    bytes [<], [>], double quote and single quote: inside the quoted
    attribute of the stream header, an escaped domain can neither end the
    attribute value nor open or close a tag. *)
Theorem X1_xmlEscape_leaves_no_markup (s : string) :
  allChars (fun c => negb (isMarkup c)) (xmlEscape s) = true.
Proof.
  induction s as [|c r IH]; simpl.
  - reflexivity.
  - destruct (xmlSpecial_cases c)
      as [[Hn [Hm _]] | [-> | [-> | [-> | [-> | ->]]]]].
    + rewrite Hn. simpl. rewrite Hm, IH. reflexivity.
    + simpl. exact IH.
    + simpl. exact IH.
    + simpl. exact IH.
    + simpl. exact IH.
    + simpl. exact IH.
Qed.

Lemma xmlUnescape_plain (c : ascii) (x : string) :
  (c =? "&")%char = false ->
  xmlUnescape (String c x) = String c (xmlUnescape x).
Proof.
  intros Hc.
  assert (Hent : forall e cs, isEntity (String "&" e) (c :: cs) = false).
  { intros e cs. unfold isEntity. cbn [string_of_list_ascii String.eqb].
    rewrite Ascii.eqb_sym, Hc. reflexivity. }
  destruct x as [|c1 [|c2 [|c3 [|c4 [|c5 r5]]]]]; cbn [xmlUnescape];
    rewrite ?Hent; reflexivity.
Qed.

(** X2.  [xmlEscape] loses nothing: reading the five entities back gives
    the original string, for every string; so two different domains never
    get the same escaped form. *)
Theorem X2_xmlEscape_can_be_undone (s : string) :
  xmlUnescape (xmlEscape s) = s.
Proof.
  induction s as [|c r IH]; simpl.
  - reflexivity.
  - destruct (xmlSpecial_cases c)
      as [[Hn [_ Hamp]] | [-> | [-> | [-> | [-> | ->]]]]].
    + rewrite Hn. rewrite xmlUnescape_plain by exact Hamp.
      rewrite IH. reflexivity.
    + simpl. rewrite IH. reflexivity.
    + simpl. rewrite IH. reflexivity.
    + simpl. rewrite IH. reflexivity.
    + simpl. rewrite IH. reflexivity.
    + simpl. rewrite IH. reflexivity.
Qed.

(** X3.  A string without any of the five special bytes is written as it
    is, and escaping works piece by piece: the escaped form of a
    concatenation is the concatenation of the escaped forms. *)
Theorem X3_xmlEscape_on_plain_text_and_pieces (s a b : string) :
  allChars (fun c => negb (isSpecial c)) s = true ->
  xmlEscape s = s
  /\ xmlEscape (a ++ s ++ b) = (xmlEscape a ++ s ++ xmlEscape b)%string.
Proof.
  intros Hs.
  assert (E : xmlEscape s = s).
  { induction s as [|c r IH]; simpl in *.
    - reflexivity.
    - apply andb_prop in Hs. destruct Hs as [Hc Hr].
      unfold isSpecial in Hc. destruct (xmlSpecial c); [discriminate|].
      rewrite (IH Hr). reflexivity. }
  split; [exact E|]. rewrite !xmlEscape_app, E. reflexivity.
Qed.

Lemma X3_xmlEscape_witness :
  xmlEscape "example.com" = "example.com"
  /\ xmlEscape ("<" ++ "example.com" ++ "&")
     = (xmlEscape "<" ++ "example.com" ++ xmlEscape "&")%string.
Proof.
  apply (X3_xmlEscape_on_plain_text_and_pieces "example.com" "<" "&").
  reflexivity.
Defined.

(** ** The steps of [init] one by one *)

Lemma cut_without (sep : ascii) (s : string) :
  without sep s = true -> cut sep s = None.
Proof.
  unfold without. induction s as [|c r IH]; simpl.
  - reflexivity.
  - intros H. apply andb_prop in H. destruct H as [Hc Hr].
    apply negb_true_iff in Hc. rewrite Hc, (IH Hr). reflexivity.
Qed.

(** The cut is made at the first separator. *)
Lemma cut_first (sep : ascii) (u d : string) :
  without sep u = true -> cut sep (u ++ String sep d) = Some (u, d).
Proof.
  unfold without. induction u as [|c r IH]; simpl.
  - intros _. rewrite Ascii.eqb_refl. reflexivity.
  - intros H. apply andb_prop in H. destruct H as [Hc Hr].
    apply negb_true_iff in Hc. rewrite Hc, (IH Hr). reflexivity.
Qed.

(** X4.  A user name without any [@] is refused at once: [init] returns
    the invalid-username error quoting the name, with the client as it was:
    nothing has been written to the connection and no token has been
    read. *)
Theorem X4_init_refuses_name_without_at (user passwd : string) (c : Client) :
  without "@" user = true ->
  init user passwd c
  = Fail (errors_New ("xmpp: invalid username (want user@domain): " ++ user)) c.
Proof.
  intros H. unfold init, SplitN2. rewrite (cut_without _ _ H). reflexivity.
Qed.

Lemma X4_init_refuses_name_witness :
  init "romeo.example.net" "secret" (freshClient srvRoot)
  = Fail (errors_New "xmpp: invalid username (want user@domain): romeo.example.net")
         (freshClient srvRoot).
Proof.
  apply (X4_init_refuses_name_without_at "romeo.example.net" "secret"
                                         (freshClient srvRoot)).
  reflexivity.
Defined.

Lemma not_root (se : StartElement) :
  se_Name se <> mkName nsStream "stream" ->
  negb (Space (se_Name se) =? nsStream) || negb (Local (se_Name se) =? "stream")
  = true.
Proof.
  intros H. destruct (se_Name se) as [ns l]. simpl.
  destruct (ns =? nsStream) eqn:E1; [|reflexivity].
  destruct (l =? "stream") eqn:E2; [|reflexivity].
  apply String.eqb_eq in E1, E2. subst. contradiction.
Qed.

(** X5.  The name is cut at its first [@]: what precedes is the user,
    everything after it the domain, to which the stream header is
    addressed.  When the first start element the server sends is not the
    stream root, [init] fails with an error naming the element received,
    having written the header and nothing else. *)
Theorem X5_init_wants_the_stream_root
    (u d passwd : string) (c : Client) (se : StartElement) (d1 : Decoder) :
  without "@" u = true ->
  nextStart (dec c) = Ret se d1 ->
  se_Name se <> mkName nsStream "stream" ->
  init (u ++ "@" ++ d) passwd c
  = Fail (errors_New ("xmpp: expected <stream> but got <" ++ Local (se_Name se)
                      ++ "> in " ++ Space (se_Name se)))
         (wrote c d1 [(xmlDecl ++ streamHeader d)%string]).
Proof.
  intros Hu Hstart Hname. unfold init, SplitN2.
  change (u ++ "@" ++ d)%string with (u ++ String "@" d)%string.
  rewrite (cut_first _ _ d Hu).
  unfold bind at 1. unfold Fprintf at 1.
  unfold bind at 1. unfold onDec at 1. simpl dec. rewrite Hstart.
  rewrite (not_root se Hname). reflexivity.
Qed.

Lemma X5_init_wants_the_stream_root_witness :
  init ("romeo" ++ "@" ++ "example.net@x") "secret"
       (freshClient [TCharData " "; startEl nsClient "stream" []])
  = Fail (errors_New "xmpp: expected <stream> but got <stream> in jabber:client")
         (mkClient (mkDecoder [] io_EOF)
                   [W_text (xmlDecl ++ streamHeader "example.net@x")] "" []).
Proof.
  apply (X5_init_wants_the_stream_root
           "romeo" "example.net@x" "secret"
           (freshClient [TCharData " "; startEl nsClient "stream" []])
           (se := mkStart (mkName nsClient "stream") [])
           (d1 := mkDecoder [] io_EOF)).
  - reflexivity.
  - reflexivity.
  - discriminate.
Defined.

Lemma init_reaches_restart (user passwd u domain : string) (c : Client)
    (se : StartElement) (d1 d2 : Decoder) (f : streamFeatures.t) :
  cut "@" user = Some (u, domain) ->
  nextStart (dec c) = Ret se d1 ->
  se_Name se = mkName nsStream "stream" ->
  DecodeInto streamFeatures.info streamFeatures.zero None d1 = Ret f d2 ->
  In "PLAIN" (saslMechanisms.Mechanism (streamFeatures.Mechanisms f)) ->
  init user passwd c
  = init_restart domain f
      (wrote c d2 [(xmlDecl ++ streamHeader domain)%string; authPlain u passwd]).
Proof.
  intros Hcut Hroot Hname Hdec Hplain.
  rewrite (init_reaches_features user passwd c Hcut Hroot Hname).
  unfold bind at 1. unfold attempt at 1. unfold onDec at 1. unfold wrote at 1.
  simpl dec. rewrite Hdec.
  rewrite (init_auth_plain u passwd domain f _ Hplain).
  unfold wrote. simpl. rewrite <- app_assoc. reflexivity.
Qed.

(** X6.  When the element read after the auth element is a SASL failure,
    [init] returns the error ["auth failure: "] followed by the local name
    held in the [Any] field of the decoded failure; it has written the
    header and the auth element and nothing after them, and the bound
    identifier is untouched. *)
Theorem X6_init_auth_failure
    (user passwd u domain : string) (c : Client) (se : StartElement)
    (d1 d2 d3 : Decoder) (f : streamFeatures.t) (n : Name) (v : saslFailure.t) :
  cut "@" user = Some (u, domain) ->
  nextStart (dec c) = Ret se d1 ->
  se_Name se = mkName nsStream "stream" ->
  DecodeInto streamFeatures.info streamFeatures.zero None d1 = Ret f d2 ->
  In "PLAIN" (saslMechanisms.Mechanism (streamFeatures.Mechanisms f)) ->
  next d2 = Ret (n, V_saslFailure v) d3 ->
  init user passwd c
  = Fail (errors_New ("auth failure: " ++ Local (saslFailure.Any v)))
         (wrote c d3 [(xmlDecl ++ streamHeader domain)%string; authPlain u passwd]).
Proof.
  intros Hcut Hroot Hname Hdec Hplain Hnext.
  rewrite (init_reaches_restart user passwd c Hcut Hroot Hname Hdec Hplain).
  unfold init_restart. unfold bind at 1. unfold attempt at 1. unfold onDec at 1.
  unfold wrote at 1. simpl dec. rewrite Hnext. reflexivity.
Qed.

Lemma X6_init_auth_failure_witness :
  init "user@domain" "invalid"
       (freshClient (srvRoot ++ srvFeatures ["PLAIN"] ++ srvFailure))
  = Fail (errors_New "auth failure: ")
         (mkClient (mkDecoder [] io_EOF)
                   [ W_text (xmlDecl ++ streamHeader "domain");
                     W_text (authPlain "user" "invalid") ] "" []).
Proof.
  apply (X6_init_auth_failure
           "user@domain" "invalid" (u := "user") (domain := "domain")
           (freshClient (srvRoot ++ srvFeatures ["PLAIN"] ++ srvFailure))
           (se := mkStart (mkName nsStream "stream")
                    [ attr "id" "16334887770442657903"; attr "version" "1.0";
                      mkAttr (mkName "xmlns" "stream") nsStream;
                      attr "from" "domain"; attr "xmlns" nsClient ])
           (d1 := mkDecoder (srvFeatures ["PLAIN"] ++ srvFailure) io_EOF)
           (d2 := mkDecoder srvFailure io_EOF)
           (d3 := mkDecoder [] io_EOF)
           (f := mechanismsOf ["PLAIN"])
           (n := mkName nsSASL "failure")
           (v := saslFailure.mk (mkName nsSASL "failure") zeroName)).
  - reflexivity.
  - reflexivity.
  - reflexivity.
  - reflexivity.
  - simpl. left. reflexivity.
  - reflexivity.
Defined.

(** X7.  When reading the result of authentication gives anything but a
    SASL success or failure, [init] fails with the error ["expected
    <success> or <failure>, got <...> in ..."]: for a decoded element of
    another kind the message names it; for an error of [next] (an element
    outside the table, a decoding error) the error itself is dropped and
    the message names nothing.  In both cases only the header and the auth
    element have been written. *)
Theorem X7_init_unexpected_auth_result
    (user passwd u domain : string) (c : Client) (se : StartElement)
    (d1 d2 : Decoder) (f : streamFeatures.t) :
  cut "@" user = Some (u, domain) ->
  nextStart (dec c) = Ret se d1 ->
  se_Name se = mkName nsStream "stream" ->
  DecodeInto streamFeatures.info streamFeatures.zero None d1 = Ret f d2 ->
  In "PLAIN" (saslMechanisms.Mechanism (streamFeatures.Mechanisms f)) ->
  (forall (n : Name) (v : value) (d3 : Decoder),
      next d2 = Ret (n, v) d3 ->
      isSuccessOrFailure v = false ->
      init user passwd c
      = Fail (errors_New ("expected <success> or <failure>, got <" ++ Local n
                          ++ "> in " ++ Space n))
             (wrote c d3 [(xmlDecl ++ streamHeader domain)%string; authPlain u passwd]))
  /\ (forall (e : error) (d3 : Decoder),
         next d2 = Fail e d3 ->
         init user passwd c
         = Fail (errors_New "expected <success> or <failure>, got <> in ")
                (wrote c d3 [(xmlDecl ++ streamHeader domain)%string;
                             authPlain u passwd])).
Proof.
  intros Hcut Hroot Hname Hdec Hplain.
  rewrite (init_reaches_restart user passwd c Hcut Hroot Hname Hdec Hplain).
  split.
  - intros n v d3 Hnext Hv.
    unfold init_restart. unfold bind at 1. unfold attempt at 1. unfold onDec at 1.
    unfold wrote at 1. simpl dec. rewrite Hnext.
    destruct v; try discriminate Hv; reflexivity.
  - intros e d3 Hnext.
    unfold init_restart. unfold bind at 1. unfold attempt at 1. unfold onDec at 1.
    unfold wrote at 1. simpl dec. rewrite Hnext. reflexivity.
Qed.

Lemma X7_init_unexpected_auth_result_witness :
  init "user@domain" "invalid"
       (freshClient (srvRoot ++ srvFeatures ["PLAIN"] ++ srvFeatures []))
  = Fail (errors_New ("expected <success> or <failure>, got <features> in "
                      ++ nsStream))
         (mkClient (mkDecoder [] io_EOF)
                   [ W_text (xmlDecl ++ streamHeader "domain");
                     W_text (authPlain "user" "invalid") ] "" [])
  /\ init "user@domain" "invalid"
       (freshClient (srvRoot ++ srvFeatures ["PLAIN"]
                     ++ [startEl nsSASL "challenge" []; endEl nsSASL "challenge"]))
     = Fail (errors_New "expected <success> or <failure>, got <> in ")
            (mkClient (mkDecoder [endEl nsSASL "challenge"] io_EOF)
                      [ W_text (xmlDecl ++ streamHeader "domain");
                        W_text (authPlain "user" "invalid") ] "" []).
Proof.
  split.
  - apply (proj1 (X7_init_unexpected_auth_result
                    "user@domain" "invalid" (u := "user") (domain := "domain")
                    (freshClient (srvRoot ++ srvFeatures ["PLAIN"] ++ srvFeatures []))
                    (d1 := mkDecoder (srvFeatures ["PLAIN"] ++ srvFeatures []) io_EOF)
                    (d2 := mkDecoder (srvFeatures []) io_EOF)
                    (f := mechanismsOf ["PLAIN"])
                    eq_refl eq_refl eq_refl eq_refl (or_introl eq_refl))
                 (mkName nsStream "features")
                 (V_streamFeatures (mechanismsOf []))
                 (mkDecoder [] io_EOF)).
    + reflexivity.
    + reflexivity.
  - apply (proj2 (X7_init_unexpected_auth_result
                    "user@domain" "invalid" (u := "user") (domain := "domain")
                    (freshClient (srvRoot ++ srvFeatures ["PLAIN"]
                                  ++ [startEl nsSASL "challenge" [];
                                      endEl nsSASL "challenge"]))
                    (d1 := mkDecoder (srvFeatures ["PLAIN"]
                                      ++ [startEl nsSASL "challenge" [];
                                          endEl nsSASL "challenge"]) io_EOF)
                    (d2 := mkDecoder [startEl nsSASL "challenge" [];
                                      endEl nsSASL "challenge"] io_EOF)
                    (f := mechanismsOf ["PLAIN"])
                    eq_refl eq_refl eq_refl eq_refl (or_introl eq_refl))
                 (errors_New "non-pointer passed to Unmarshal")
                 (mkDecoder [endEl nsSASL "challenge"] io_EOF)).
    reflexivity.
Defined.

(** ** What [init] writes, step after step *)

Lemma scripted_stop (c c' : Client) (ws rest : list written)
    (o : outcome Client unit) :
  rest <> [] ->
  tls c' = tls c ++ ws -> jid c' = jid c -> stdout c' = stdout c ->
  (exists e, o = Fail e c') \/ (exists l, o = Exit l c') ->
  scripted c (ws ++ rest) o.
Proof.
  intros Hrest Htls Hjid Hout Ho.
  assert (Hk : exists k, k < length (ws ++ rest)
                         /\ tls c' = tls c ++ firstn k (ws ++ rest)).
  { exists (length ws). split.
    - rewrite length_app. destruct rest; [contradiction | simpl; lia].
    - rewrite <- (Nat.add_0_r (length ws)), firstn_app_2. simpl.
      rewrite app_nil_r. exact Htls. }
  destruct Ho as [[e ->] | [l ->]]; simpl; auto.
Qed.

Lemma scripted_frame (c c1 : Client) (ws script : list written)
    (o : outcome Client unit) :
  tls c1 = tls c ++ ws -> jid c1 = jid c -> stdout c1 = stdout c ->
  scripted c1 script o -> scripted c (ws ++ script) o.
Proof.
  intros Htls Hjid Hout.
  assert (Hk : forall c', (exists k, k < length script
                                     /\ tls c' = tls c1 ++ firstn k script) ->
                          exists k, k < length (ws ++ script)
                                    /\ tls c' = tls c ++ firstn k (ws ++ script)).
  { intros c' [k [Hlt E]]. exists (length ws + k). split.
    - rewrite length_app. lia.
    - rewrite firstn_app_2, E, Htls, app_assoc. reflexivity. }
  destruct o as [[] c' | e c' | l c' |]; simpl; try tauto.
  - intros [E1 E2]. rewrite E1, Htls, app_assoc. split; congruence.
  - intros [E1 [E2 E3]]. repeat split; try congruence. apply Hk, E1.
  - intros [E1 [E2 E3]]. repeat split; try congruence. apply Hk, E1.
Qed.

Lemma scripted_onDec {A} (m : M Decoder A) (c : Client) (script : list written)
    (k : A -> M Client unit) :
  script <> [] ->
  finishes (m (dec c)) ->
  (forall a d, m (dec c) = Ret a d ->
               scripted (mkClient d (tls c) (jid c) (stdout c)) script
                        (k a (mkClient d (tls c) (jid c) (stdout c)))) ->
  scripted c script (bind (onDec m) k c).
Proof.
  intros Hs Hfin Hk. unfold bind, onDec.
  destruct (m (dec c)) as [a d | e d | l d |] eqn:E.
  - apply (@scripted_frame c (mkClient d (tls c) (jid c) (stdout c)) [] script);
      simpl; eauto; try (symmetry; apply app_nil_r).
  - apply (@scripted_stop c (mkClient d (tls c) (jid c) (stdout c)) [] script _ Hs);
      simpl; eauto; try (symmetry; apply app_nil_r).
  - apply (@scripted_stop c (mkClient d (tls c) (jid c) (stdout c)) [] script _ Hs);
      simpl; eauto; try (symmetry; apply app_nil_r).
  - exfalso. apply Hfin. reflexivity.
Qed.

Lemma scripted_attempt {A} (m : M Decoder A) (c : Client) (script : list written)
    (k : A + error -> M Client unit) :
  script <> [] ->
  finishes (m (dec c)) ->
  (forall r d, scripted (mkClient d (tls c) (jid c) (stdout c)) script
                        (k r (mkClient d (tls c) (jid c) (stdout c)))) ->
  scripted c script (bind (attempt (onDec m)) k c).
Proof.
  intros Hs Hfin Hk. unfold bind, attempt, onDec.
  destruct (m (dec c)) as [a d | e d | l d |] eqn:E.
  - apply (@scripted_frame c (mkClient d (tls c) (jid c) (stdout c)) [] script);
      simpl; eauto; try (symmetry; apply app_nil_r).
  - apply (@scripted_frame c (mkClient d (tls c) (jid c) (stdout c)) [] script);
      simpl; eauto; try (symmetry; apply app_nil_r).
  - apply (@scripted_stop c (mkClient d (tls c) (jid c) (stdout c)) [] script _ Hs);
      simpl; eauto; try (symmetry; apply app_nil_r).
  - exfalso. apply Hfin. reflexivity.
Qed.

Lemma scripted_Fprintf (s : string) (c : Client) (script : list written)
    (k : unit -> M Client unit) :
  scripted (mkClient (dec c) (tls c ++ [W_text s]) (jid c) (stdout c)) script
           (k tt (mkClient (dec c) (tls c ++ [W_text s]) (jid c) (stdout c))) ->
  scripted c (W_text s :: script) (bind (Fprintf s) k c).
Proof.
  intros H. unfold bind, Fprintf.
  apply (@scripted_frame c (mkClient (dec c) (tls c ++ [W_text s]) (jid c) (stdout c))
                         [W_text s] script _ eq_refl eq_refl eq_refl H).
Qed.

Lemma scripted_fail (c : Client) (script : list written) (e : error) :
  script <> [] -> scripted c script (fail e c).
Proof.
  intros Hs. apply (@scripted_stop c c [] script _ Hs); eauto.
  symmetry. apply app_nil_r.
Qed.

Lemma init_bind_scripted (c : Client) :
  scripted c [W_text bindRequest; W_text initialPresence] (init_bind c).
Proof.
  unfold init_bind. apply scripted_Fprintf.
  apply scripted_attempt; [discriminate | |].
  - apply (finishes_within (dec c)), within_DecodeInto. auto with fuel.
  - intros [iq | e] d; [|apply scripted_fail; discriminate].
    unfold addrIsNil, bind, setJid, Fprintf. simpl. auto.
Qed.

Lemma init_features2_scripted (f : streamFeatures.t) (c : Client) :
  scripted c [W_text bindRequest; W_text initialPresence] (init_features2 f c).
Proof.
  unfold init_features2. apply scripted_attempt; [discriminate | |].
  - apply (finishes_within (dec c)), within_DecodeInto. auto with fuel.
  - intros r d. apply init_bind_scripted.
Qed.

Lemma init_restart_scripted (domain : string) (f : streamFeatures.t) (c : Client) :
  scripted c [ W_text (streamHeader domain); W_text bindRequest;
               W_text initialPresence ]
           (init_restart domain f c).
Proof.
  unfold init_restart. apply scripted_attempt; [discriminate | |].
  - pose proof (next_consumes (dec c)) as H. unfold finishes.
    destruct (next (dec c)); try discriminate. contradiction.
  - intros [[n v] | e] d; [|apply scripted_fail; discriminate].
    destruct v; try (apply scripted_fail; discriminate).
    apply scripted_Fprintf.
    apply scripted_onDec; [discriminate | apply nextStart_finishes |].
    intros se d' _.
    destruct (negb (Space (se_Name se) =? nsStream)
              || negb (Local (se_Name se) =? "stream"));
      [apply scripted_fail; discriminate | apply init_features2_scripted].
Qed.

Lemma init_auth_scripted (user passwd domain : string) (f : streamFeatures.t)
    (c : Client) :
  scripted c [ W_text (authPlain user passwd); W_text (streamHeader domain);
               W_text bindRequest; W_text initialPresence ]
           (init_auth user passwd domain f c).
Proof.
  unfold init_auth.
  destruct (negb (havePlain (saslMechanisms.Mechanism (streamFeatures.Mechanisms f))));
    [apply scripted_fail; discriminate|].
  apply scripted_Fprintf. apply init_restart_scripted.
Qed.

Lemma init_scripted (user passwd u domain : string) (c : Client) :
  cut "@" user = Some (u, domain) ->
  scripted c (initScript user passwd) (init user passwd c).
Proof.
  intros Hcut. unfold init, initScript, SplitN2. rewrite Hcut.
  cbn [map]. apply scripted_Fprintf.
  apply scripted_onDec; [discriminate | apply nextStart_finishes |].
  intros se d _.
  destruct (negb (Space (se_Name se) =? nsStream)
            || negb (Local (se_Name se) =? "stream"));
    [apply scripted_fail; discriminate|].
  apply scripted_attempt; [discriminate | |].
  - apply (finishes_within d), within_DecodeInto. auto with fuel.
  - intros [f | e] d'; [apply init_auth_scripted | apply scripted_fail; discriminate].
Qed.

(** X8.  [init] writes to the connection the five texts of its script
    (header, auth element, header again, bind request, initial presence)
    in this order and each at most once.  It returns nil only after all
    five; when it returns an error or ends the process it has written
    fewer than five, an initial part of the script, and the bound
    identifier is the one the client had before.  It never prints. *)
Theorem X8_init_follows_its_script (user passwd : string) (c : Client) :
  match init user passwd c with
  | Ret _ c' =>
      tls c' = tls c ++ initScript user passwd
      /\ length (initScript user passwd) = 5
      /\ stdout c' = stdout c
  | Fail _ c' | Exit _ c' =>
      (exists k, k < 5 /\ tls c' = tls c ++ firstn k (initScript user passwd))
      /\ jid c' = jid c /\ stdout c' = stdout c
  | OutOfFuel => False
  end.
Proof.
  destruct (cut "@" user) as [[u domain]|] eqn:Hcut.
  - pose proof (init_scripted user passwd c Hcut) as H.
    assert (Hlen : length (initScript user passwd) = 5).
    { unfold initScript. rewrite Hcut. reflexivity. }
    unfold scripted in H. rewrite Hlen in H.
    destruct (init user passwd c) as [[] c' | e c' | l c' |]; tauto.
  - unfold init, SplitN2. rewrite Hcut. simpl.
    repeat split. exists 0. split; [lia|]. simpl. symmetry. apply app_nil_r.
Qed.

(** ** [Recv] round by round *)





Lemma Recv_loop_S (fuel : nat) (c : Client) :
  Recv_loop (S fuel) c
  = match next (dec c) with
    | Ret r d =>
        (match snd r with
         | V_Message v => ret (V_Message v)
         | V_Presence v => ret (V_Presence v)
         | val => Println val ;;; Recv_loop fuel
         end) (mkClient d (tls c) (jid c) (stdout c))
    | Fail e d => Fail e (mkClient d (tls c) (jid c) (stdout c))
    | Exit l d => Exit l (mkClient d (tls c) (jid c) (stdout c))
    | OutOfFuel => OutOfFuel
    end.
Proof.
  cbn [Recv_loop]. unfold bind at 1. unfold onDec.
  destruct (next (dec c)); reflexivity.
Qed.

(** Any fuel above the number of pending tokens gives the same run. *)
Lemma Recv_loop_fuel :
  forall (f1 f2 : nat) (c : Client),
    length (pending (dec c)) < f1 ->
    length (pending (dec c)) < f2 ->
    Recv_loop f1 c = Recv_loop f2 c.
Proof.
  induction f1 as [|f1 IH]; intros f2 c H1 H2.
  - inversion H1.
  - destruct f2 as [|f2]; [inversion H2|].
    rewrite !Recv_loop_S.
    pose proof (next_consumes (dec c)) as Hn.
    destruct (next (dec c)) as [[n v] d | e d | l d |]; try reflexivity.
    cbn [snd].
    assert (Hrec : (Println v ;;; Recv_loop f1) (mkClient d (tls c) (jid c) (stdout c))
                   = (Println v ;;; Recv_loop f2) (mkClient d (tls c) (jid c) (stdout c))).
    { unfold bind, Println. apply IH; simpl; lia. }
    destruct v; try exact Hrec; reflexivity.
Qed.

(** X10.  [Recv] in terms of [next].  An error of [next] is returned as it
    is.  A decoded message or presence is returned at once.  A decoded
    value of any other kind is printed and the call goes on as a fresh
    [Recv] on the rest of the stream: such values are lost to the
    caller. *)
Theorem X10_Recv_round (c : Client) (d : Decoder) :
  (forall e, next (dec c) = Fail e d ->
             Recv c = Fail e (mkClient d (tls c) (jid c) (stdout c)))
  /\ (forall n v, next (dec c) = Ret (n, v) d -> isStanza v = true ->
                  Recv c = Ret v (mkClient d (tls c) (jid c) (stdout c)))
  /\ (forall n v, next (dec c) = Ret (n, v) d -> isStanza v = false ->
                  Recv c = Recv (mkClient d (tls c) (jid c) (stdout c ++ [v]))).
Proof.
  split; [|split].
  - intros e H. unfold Recv. rewrite Recv_loop_S, H. reflexivity.
  - intros n v H Hv. unfold Recv. rewrite Recv_loop_S, H. cbn [snd].
    destruct v; try discriminate Hv; reflexivity.
  - intros n v H Hv. unfold Recv at 1. rewrite Recv_loop_S, H. cbn [snd].
    pose proof (next_consumes (dec c)) as Hn. rewrite H in Hn.
    assert (E : (Println v ;;; Recv_loop (length (pending (dec c))))
                  (mkClient d (tls c) (jid c) (stdout c))
                = Recv_loop (S (length (pending d)))
                            (mkClient d (tls c) (jid c) (stdout c ++ [v]))).
    { unfold bind, Println. apply Recv_loop_fuel; simpl; lia. }
    destruct v; try discriminate Hv; exact E.
Qed.

Lemma X10_Recv_round_witness :
  Recv (freshClient [startEl "jabber:server" "message" []])
  = Fail (errors_New "unexpected XMPP message jabber:server <message/>")
         (freshClient [])
  /\ Recv (freshClient (tl srvIqNoBind ++ skipn 2 srvIqThenMessage))
     = Ret (V_Message (Message.mk (mkName nsClient "message") "juliet@example.com"
                                  "" "" "chat" "" "hello" ""))
           (freshClient [])
  /\ Recv (freshClient srvIqThenMessage)
     = Recv (mkClient (mkDecoder (skipn 2 srvIqThenMessage) io_EOF) [] ""
                      [V_clientIQ (clientIQ.mk (mkName nsClient "iq") "" "" "" ""
                                               clientError.zero bindBind.zero)]).
Proof.
  split; [|split].
  - apply (proj1 (X10_Recv_round
                    (freshClient [startEl "jabber:server" "message" []])
                    (mkDecoder [] io_EOF))).
    reflexivity.
  - apply (proj1 (proj2 (X10_Recv_round
                    (freshClient (tl srvIqNoBind ++ skipn 2 srvIqThenMessage))
                    (mkDecoder [] io_EOF)))
                 (mkName nsClient "message")).
    + reflexivity.
    + reflexivity.
  - apply (proj2 (proj2 (X10_Recv_round
                    (freshClient srvIqThenMessage)
                    (mkDecoder (skipn 2 srvIqThenMessage) io_EOF)))
                 (mkName nsClient "iq")).
    + reflexivity.
    + reflexivity.
Defined.

(** ** The name [next] returns and the value it decodes *)

Section Keeps.

Context {T : Type} (P : T -> Prop) (fields : list (fieldInfo T)).
Hypothesis Hfields : Forall (fieldKeeps P) fields.

Lemma findEnd_keeps (saveData : bool) :
  forall (fuel : nat) (v : T) (data : string) (d : Decoder) r d',
    P v -> findEnd fields saveData fuel v data d = Ret r d' -> P (fst r).
Proof.
  induction fuel as [|fuel IH]; intros v data d r d' Hv H.
  - discriminate H.
  - cbn [findEnd] in H. unfold bind at 1 in H. unfold Token_ at 1 in H.
    destruct (pending d) as [|t rest]; [discriminate H|].
    destruct t; try (eapply IH; [exact Hv | exact H]).
    + destruct (unmarshalPath fields se) as [f|] eqn:Hpath.
      * unfold bind at 1 in H.
        destruct (f_unmarshal f fuel se v (mkDecoder rest (final d)))
          as [v1 d1 | | |] eqn:E; try discriminate H.
        eapply IH; [|exact H].
        unfold unmarshalPath in Hpath. apply find_some in Hpath.
        destruct Hpath as [Hin _]. rewrite Forall_forall in Hfields.
        apply (proj2 (Hfields f Hin) _ _ _ _ _ _ Hv E).
      * unfold bind at 1 in H.
        destruct (Skip (mkDecoder rest (final d))) as [[] d1 | | |];
          try discriminate H.
        eapply IH; [exact Hv | exact H].
    + injection H as <- _. exact Hv.
Qed.

Lemma assignAttrs_keeps (attrs : list Attr) :
  forall v : T, P v -> P (assignAttrs fields attrs v).
Proof.
  unfold assignAttrs. induction attrs as [|a r IH]; intros v Hv.
  - exact Hv.
  - cbn [fold_left]. apply IH. unfold assignAttr.
    assert (Hall : forall fs, Forall (fieldKeeps P) fs ->
              forall v0, P v0 ->
                P (fold_left
                     (fun v1 f => if attrMatches a f
                                  then f_setAttr f (a_Value a) v1 else v1)
                     fs v0)).
    { intros fs Hfs. induction Hfs as [|f fs Hf Hfs IHf]; intros v0 Hv0.
      - exact Hv0.
      - cbn [fold_left]. apply IHf.
        destruct (attrMatches a f); [apply (proj1 Hf), Hv0 | exact Hv0]. }
    apply (Hall fields Hfields v Hv).
Qed.

End Keeps.

Lemma onField_keeps {T U} (P : T -> Prop) (get : T -> U) (set : U -> T -> T)
    (u : unm U) :
  (forall x v, P v -> P (set x v)) ->
  forall fuel se v d v' d',
    P v -> onField get set u fuel se v d = Ret v' d' -> P v'.
Proof.
  intros Hset fuel se v d v' d' Hv H. unfold onField, bind in H.
  destruct (u fuel se (get v) d); try discriminate H.
  injection H as <- _. apply Hset, Hv.
Qed.

Lemma fieldKeeps_attrString {T} (P : T -> Prop) name get set :
  (forall x v, P v -> P (set x v)) -> fieldKeeps P (@attrString T name get set).
Proof.
  intros Hset. split; simpl.
  - intros s v. apply Hset.
  - intros fuel se v d v' d' Hv H. injection H as <- _. exact Hv.
Qed.

Lemma fieldKeeps_elemString {T} (P : T -> Prop) xmlns name get set :
  (forall x v, P v -> P (set x v)) -> fieldKeeps P (@elemString T xmlns name get set).
Proof. intros Hset. split; simpl; [auto | apply onField_keeps, Hset]. Qed.

Lemma fieldKeeps_elemBool {T} (P : T -> Prop) name get set :
  (forall x v, P v -> P (set x v)) -> fieldKeeps P (@elemBool T name get set).
Proof. intros Hset. split; simpl; [auto | apply onField_keeps, Hset]. Qed.

Lemma fieldKeeps_elemStrings {T} (P : T -> Prop) xmlns name get set :
  (forall x v, P v -> P (set x v)) -> fieldKeeps P (@elemStrings T xmlns name get set).
Proof. intros Hset. split; simpl; [auto | apply onField_keeps, Hset]. Qed.

Lemma fieldKeeps_elemName {T} (P : T -> Prop) name get set :
  (forall x v, P v -> P (set x v)) -> fieldKeeps P (@elemName T name get set).
Proof. intros Hset. split; simpl; [auto | apply onField_keeps, Hset]. Qed.

Lemma fieldKeeps_elemStruct {T U} (P : T -> Prop) (ti : typeInfo U) get set :
  (forall x v, P v -> P (set x v)) -> fieldKeeps P (@elemStruct T U ti get set).
Proof. intros Hset. split; simpl; [auto | apply onField_keeps, Hset]. Qed.

Lemma fieldKeeps_elemPtr {T U} (P : T -> Prop) (ti : typeInfo U) zero get set :
  (forall x v, P v -> P (set x v)) -> fieldKeeps P (@elemPtr T U ti zero get set).
Proof. intros Hset. split; simpl; [auto | apply onField_keeps, Hset]. Qed.

Ltac fields_keep :=
  simpl;
  repeat (apply Forall_cons;
          [first [ apply fieldKeeps_attrString | apply fieldKeeps_elemString
                 | apply fieldKeeps_elemBool | apply fieldKeeps_elemStrings
                 | apply fieldKeeps_elemName | apply fieldKeeps_elemStruct
                 | apply fieldKeeps_elemPtr ];
           intros ? ? Hkeep; exact Hkeep |]);
  apply Forall_nil.

(** Decoding a struct with a start element in hand leaves the name of that
    element in [XMLName], whatever the attributes and children. *)
Lemma DecodeInto_XMLName {T} (ti : typeInfo T) (getName : T -> Name)
    (v v' : T) (se : StartElement) (d d' : Decoder) :
  (forall n x, getName (ti_setXMLName ti n x) = n) ->
  (forall n, Forall (fieldKeeps (fun x => getName x = n)) (ti_fields ti)) ->
  DecodeInto ti v (Some se) d = Ret v' d' ->
  getName v' = se_Name se.
Proof.
  intros Hset Hfields H. unfold DecodeInto, unmarshalStruct in H.
  destruct (negb (ti_name ti =? "") && negb (ti_name ti =? Local (se_Name se)));
    [discriminate H|].
  destruct (negb (ti_xmlns ti =? "") && negb (ti_xmlns ti =? Space (se_Name se)));
    [discriminate H|].
  unfold bind in H.
  destruct (findEnd (ti_fields ti) false (S (length (pending d)))
                    (assignAttrs (ti_fields ti) (se_Attr se)
                                 (ti_setXMLName ti (se_Name se) v)) "" d)
    as [r d1 | | |] eqn:E; try discriminate H.
  injection H as <- _.
  eapply (findEnd_keeps (Hfields (se_Name se))); [|exact E].
  apply assignAttrs_keeps; [apply Hfields | apply Hset].
Qed.

Lemma DecodeElement_Ret (nv x : value) (se : StartElement) (d d' : Decoder) :
  DecodeElement nv (Some se) d = Ret x d' ->
  allocated x = allocated nv /\ XMLNameOf x = Some (se_Name se).
Proof.
  destruct nv; unfold DecodeElement; try discriminate;
    unfold bind;
    match goal with
    | |- context [DecodeInto ?ti ?v0 (Some se) d] =>
        destruct (DecodeInto ti v0 (Some se) d) as [y d1 | | |] eqn:E;
          try discriminate;
          intros H; injection H as <- _; split; [reflexivity|];
          simpl; f_equal;
          apply (DecodeInto_XMLName ti _ v0 se d (d' := d1));
          [ intros ? ?; reflexivity | intros ?; fields_keep | exact E ]
    end.
Qed.

Lemma protoTable_allocated (n : Name) (nv : value) :
  lookupName n protoTable = Some nv -> allocated nv = nv.
Proof.
  intros H. apply lookupName_In in H. simpl in H.
  repeat (destruct H as [H | H]; [injection H as _ <-; reflexivity|]).
  contradiction.
Qed.

Lemma next_Ret (p p' : Decoder) (n : Name) (v : value) :
  next p = Ret (n, v) p' ->
  lookupName n protoTable = Some (allocated v) /\ XMLNameOf v = Some n.
Proof.
  intros H.
  destruct (nextStart p) as [se p1 | e p1 | l p1 |] eqn:E.
  - rewrite (next_unfold p E) in H.
    destruct (lookupName (se_Name se) protoTable) as [nv|] eqn:Hnv;
      [|discriminate H].
    unfold bind in H.
    destruct (DecodeElement nv (Some se) p1) as [x d1 | | |] eqn:Hd;
      try discriminate H.
    injection H as <- <- _.
    destruct (DecodeElement_Ret nv se p1 Hd) as [Hk Hname].
    rewrite Hk, (protoTable_allocated _ Hnv). auto.
  - exfalso. exact (nextStart_never_fails p E).
  - unfold next, bind in H. rewrite E in H. discriminate H.
  - exfalso. exact (nextStart_finishes p E).
Qed.

(** X11.  Whenever [next] returns a name and a value, the name is the
    entry of the dispatch table for the kind of the value, and it is the
    name stored in the [XMLName] field of the value.  The value is never
    a bare string: no SASL challenge or response is ever returned. *)
Theorem X11_next_name_and_value_agree (p p' : Decoder) (n : Name) (v : value) :
  next p = Ret (n, v) p' ->
  lookupName n protoTable = Some (allocated v)
  /\ XMLNameOf v = Some n
  /\ (forall s, v <> V_string s).
Proof.
  intros H. destruct (next_Ret p H) as [H1 H2]. repeat split; try assumption.
  intros s ->. discriminate H2.
Qed.

Lemma X11_next_name_and_value_witness :
  lookupName (mkName nsSASL "success") protoTable
  = Some (allocated (V_saslSuccess (saslSuccess.mk (mkName nsSASL "success"))))
  /\ XMLNameOf (V_saslSuccess (saslSuccess.mk (mkName nsSASL "success")))
     = Some (mkName nsSASL "success")
  /\ (forall s, V_saslSuccess (saslSuccess.mk (mkName nsSASL "success")) <> V_string s).
Proof.
  apply (X11_next_name_and_value_agree
           (mkDecoder srvSuccess io_EOF) (p' := mkDecoder [] io_EOF)).
  reflexivity.
Defined.

(** X12.  A message that [Recv] returns carries the qualified name
    (jabber:client, message) in its [XMLName], and a presence the name
    (jabber:client, presence): an element of the same local name in
    another name space is never delivered as a stanza. *)
Theorem X12_Recv_stanza_names (c c' : Client) (v : value) :
  Recv c = Ret v c' ->
  match v with
  | V_Message m => Message.XMLName m = mkName nsClient "message"
  | V_Presence p => Presence.XMLName p = mkName nsClient "presence"
  | _ => False
  end.
Proof.
  unfold Recv. generalize (S (length (pending (dec c)))). intros fuel.
  revert c. induction fuel as [|fuel IH]; intros c H.
  - discriminate H.
  - rewrite Recv_loop_S in H.
    destruct (next (dec c)) as [[n x] d | | |] eqn:E; try discriminate H.
    cbn [snd] in H. destruct (next_Ret _ E) as [Hk Hname].
    assert (Hgo : (Println x ;;; Recv_loop fuel) (mkClient d (tls c) (jid c) (stdout c))
                  = Ret v c' ->
                  match v with
                  | V_Message m => Message.XMLName m = mkName nsClient "message"
                  | V_Presence p => Presence.XMLName p = mkName nsClient "presence"
                  | _ => False
                  end).
    { unfold bind, Println. apply IH. }
    destruct x; try (apply Hgo; exact H).
    + injection H as <- _. simpl in Hname. injection Hname as ->.
      apply lookupName_In in Hk. simpl in Hk.
      repeat (destruct Hk as [Hk | Hk]; [try discriminate Hk; injection Hk as <-; reflexivity|]).
      contradiction.
    + injection H as <- _. simpl in Hname. injection Hname as ->.
      apply lookupName_In in Hk. simpl in Hk.
      repeat (destruct Hk as [Hk | Hk]; [try discriminate Hk; injection Hk as <-; reflexivity|]).
      contradiction.
Qed.

Lemma X12_Recv_stanza_names_witness :
  Message.XMLName (Message.mk (mkName nsClient "message") "juliet@example.com"
                              "" "" "chat" "" "hello" "")
  = mkName nsClient "message".
Proof.
  apply (X12_Recv_stanza_names
           (freshClient srvIqThenMessage)
           (c' := mkClient (mkDecoder [] io_EOF) [] ""
                    [V_clientIQ (clientIQ.mk (mkName nsClient "iq") "" "" "" ""
                                             clientError.zero bindBind.zero)])
           (v := V_Message (Message.mk (mkName nsClient "message")
                                       "juliet@example.com" "" "" "chat" ""
                                       "hello" ""))).
  vm_compute. reflexivity.
Defined.

(** X13.  A TLS [starttls] element never decodes: the dispatcher allocates
    a [tlsStartTLS] for the name (urn:ietf:params:xml:ns:xmpp-tls,
    starttls), but the tag of that struct names the space without its
    leading [urn], so [DecodeElement] rejects the element and [next]
    returns the error of the mismatch, the decoder standing after the
    start tag. *)
Theorem X13_starttls_never_decodes (p p' : Decoder) (se : StartElement) :
  nextStart p = Ret se p' ->
  se_Name se = mkName nsTLS "starttls" ->
  next p
  = Fail (UnmarshalError
            ("expected element <starttls> in name space "
             ++ ":ietf:params:xml:ns:xmpp-tls but have "
             ++ "urn:ietf:params:xml:ns:xmpp-tls")) p'.
Proof.
  intros Hstart Hname. rewrite (next_unfold p Hstart).
  destruct se as [n attrs]. simpl in Hname. subst n. reflexivity.
Qed.

Lemma X13_starttls_witness :
  next (mkDecoder [ startEl nsTLS "starttls" [attr "xmlns" nsTLS];
                    startEl nsTLS "required" []; endEl nsTLS "required";
                    endEl nsTLS "starttls" ] io_EOF)
  = Fail (UnmarshalError
            ("expected element <starttls> in name space "
             ++ ":ietf:params:xml:ns:xmpp-tls but have "
             ++ "urn:ietf:params:xml:ns:xmpp-tls"))
         (mkDecoder [ startEl nsTLS "required" []; endEl nsTLS "required";
                      endEl nsTLS "starttls" ] io_EOF).
Proof.
  apply (X13_starttls_never_decodes
           (mkDecoder [ startEl nsTLS "starttls" [attr "xmlns" nsTLS];
                        startEl nsTLS "required" []; endEl nsTLS "required";
                        endEl nsTLS "starttls" ] io_EOF)
           (se := mkStart (mkName nsTLS "starttls") [attr "xmlns" nsTLS])).
  - reflexivity.
  - reflexivity.
Defined.

(** ** The payload of the auth element *)

Lemma unb64_b64 (n : nat) :
  n < 64 -> unb64 (b64 n) = n /\ Ascii.eqb (b64 n) "=" = false.
Proof.
  intros H.
  do 64 (destruct n as [|n]; [split; reflexivity|]).
  lia.
Qed.

Lemma bytesOf_bound (s : string) : Forall (fun b => b < 256) (bytesOf s).
Proof.
  unfold bytesOf. induction s as [|c r IH]; simpl; constructor.
  - apply nat_ascii_bounded.
  - exact IH.
Qed.

Lemma base64_group3 (a b c : nat) (r : list nat) :
  a < 256 -> b < 256 -> c < 256 ->
  base64_Decode (base64_Encode (a :: b :: c :: r))
  = a :: b :: c :: base64_Decode (base64_Encode r).
Proof.
  intros Ha Hb Hc. cbn [base64_Encode base64_Decode].
  assert (H1 : a / 4 < 64) by (apply Nat.Div0.div_lt_upper_bound; lia).
  assert (H2 : a mod 4 * 16 + b / 16 < 64).
  { pose proof (Nat.mod_upper_bound a 4).
    assert (b / 16 < 16) by (apply Nat.Div0.div_lt_upper_bound; lia). lia. }
  assert (H3 : b mod 16 * 4 + c / 64 < 64).
  { pose proof (Nat.mod_upper_bound b 16).
    assert (c / 64 < 4) by (apply Nat.Div0.div_lt_upper_bound; lia). lia. }
  assert (H4 : c mod 64 < 64) by (apply Nat.mod_upper_bound; lia).
  destruct (unb64_b64 H1) as [E1 _]. destruct (unb64_b64 H2) as [E2 _].
  destruct (unb64_b64 H3) as [E3 _]. destruct (unb64_b64 H4) as [E4 N4].
  rewrite N4, E1, E2, E3, E4.
  f_equal; [|f_equal; [|f_equal]].
  - pose proof (Nat.div_mod_eq a 4). pose proof (Nat.mod_upper_bound a 4).
    assert ((a mod 4 * 16 + b / 16) / 16 = a mod 4).
    { assert (b / 16 < 16) by (apply Nat.Div0.div_lt_upper_bound; lia).
      rewrite Nat.add_comm, Nat.div_add by lia.
      rewrite Nat.div_small by lia. reflexivity. }
    lia.
  - assert ((a mod 4 * 16 + b / 16) mod 16 = b / 16).
    { assert (b / 16 < 16) by (apply Nat.Div0.div_lt_upper_bound; lia).
      rewrite Nat.add_comm, Nat.Div0.mod_add. apply Nat.mod_small. lia. }
    assert ((b mod 16 * 4 + c / 64) / 4 = b mod 16).
    { assert (c / 64 < 4) by (apply Nat.Div0.div_lt_upper_bound; lia).
      rewrite Nat.add_comm, Nat.div_add by lia.
      rewrite Nat.div_small by lia. reflexivity. }
    pose proof (Nat.div_mod_eq b 16). lia.
  - assert ((b mod 16 * 4 + c / 64) mod 4 = c / 64).
    { assert (c / 64 < 4) by (apply Nat.Div0.div_lt_upper_bound; lia).
      rewrite Nat.add_comm, Nat.Div0.mod_add. apply Nat.mod_small. lia. }
    pose proof (Nat.div_mod_eq c 64). lia.
Qed.

Lemma base64_group1 (a : nat) :
  a < 256 -> base64_Decode (base64_Encode [a]) = [a].
Proof.
  intros Ha. cbn [base64_Encode base64_Decode].
  assert (H1 : a / 4 < 64) by (apply Nat.Div0.div_lt_upper_bound; lia).
  assert (H2 : a mod 4 * 16 < 64) by (pose proof (Nat.mod_upper_bound a 4); lia).
  destruct (unb64_b64 H1) as [E1 _]. destruct (unb64_b64 H2) as [E2 _].
  rewrite E1, E2. simpl Ascii.eqb. cbn iota.
  rewrite Nat.div_mul by lia.
  pose proof (Nat.div_mod_eq a 4). f_equal. lia.
Qed.

Lemma base64_group2 (a b : nat) :
  a < 256 -> b < 256 -> base64_Decode (base64_Encode [a; b]) = [a; b].
Proof.
  intros Ha Hb. cbn [base64_Encode base64_Decode].
  assert (Hb16 : b / 16 < 16) by (apply Nat.Div0.div_lt_upper_bound; lia).
  assert (H1 : a / 4 < 64) by (apply Nat.Div0.div_lt_upper_bound; lia).
  assert (H2 : a mod 4 * 16 + b / 16 < 64)
    by (pose proof (Nat.mod_upper_bound a 4); lia).
  assert (H3 : b mod 16 * 4 < 64) by (pose proof (Nat.mod_upper_bound b 16); lia).
  destruct (unb64_b64 H1) as [E1 _]. destruct (unb64_b64 H2) as [E2 _].
  destruct (unb64_b64 H3) as [E3 N3].
  rewrite E1, E2, E3, N3. simpl Ascii.eqb. cbn iota.
  f_equal; [|f_equal].
  - assert ((a mod 4 * 16 + b / 16) / 16 = a mod 4).
    { rewrite Nat.add_comm, Nat.div_add by lia.
      rewrite Nat.div_small by lia. reflexivity. }
    pose proof (Nat.div_mod_eq a 4). lia.
  - assert ((a mod 4 * 16 + b / 16) mod 16 = b / 16).
    { rewrite Nat.add_comm, Nat.Div0.mod_add. apply Nat.mod_small. lia. }
    rewrite Nat.div_mul by lia.
    pose proof (Nat.div_mod_eq b 16). lia.
Qed.

Lemma base64_roundtrip (l : list nat) :
  Forall (fun b => b < 256) l ->
  base64_Decode (base64_Encode l) = l
  /\ (forall a, a < 256 -> base64_Decode (base64_Encode (a :: l)) = a :: l)
  /\ (forall a b, a < 256 -> b < 256 ->
                  base64_Decode (base64_Encode (a :: b :: l)) = a :: b :: l).
Proof.
  induction l as [|c r IH]; intros Hall.
  - split; [reflexivity|]. split; [apply base64_group1 | apply base64_group2].
  - inversion Hall as [|? ? Hc Hr]; subst.
    destruct (IH Hr) as [I1 [I2 I3]]. split; [apply I2, Hc|].
    split; [intros a Ha; apply I3; assumption|].
    intros a b Ha Hb. rewrite base64_group3 by assumption. rewrite I1. reflexivity.
Qed.

Lemma base64_length :
  forall l : list nat, String.length (base64_Encode l) = EncodedLen (length l)
                       /\ (forall a, String.length (base64_Encode (a :: l))
                                     = EncodedLen (S (length l)))
                       /\ (forall a b, String.length (base64_Encode (a :: b :: l))
                                       = EncodedLen (S (S (length l)))).
Proof.
  assert (Hstep : forall n, EncodedLen (S (S (S n))) = 4 + EncodedLen n).
  { intros n. unfold EncodedLen.
    replace (S (S (S n)) + 2) with (n + 2 + 1 * 3) by lia.
    rewrite Nat.div_add by lia. lia. }
  induction l as [|c r IH].
  - repeat split.
  - destruct IH as [I1 [I2 I3]]. split; [apply I2|].
    split; [intros a; apply (I3 a c)|].
    intros a b. cbn [base64_Encode String.length length].
    rewrite I1, Hstep. reflexivity.
Qed.

(** X14.  The payload of the auth element is the padded standard base64
    of the bytes NUL, user, NUL, password: reading it back as base64 gives
    exactly these bytes, for every user and password, and its length is
    the [EncodedLen] of their number, so the buffer [init] allocates is
    filled to its end. *)
Theorem X14_auth_payload (user passwd : string) :
  authPlain user passwd
  = ("<auth xmlns='" ++ nsSASL ++ "' mechanism='PLAIN'>"
     ++ base64_Encode (bytesOf (NUL ++ user ++ NUL ++ passwd))
     ++ "</auth>" ++ LF)%string
  /\ base64_Decode (base64_Encode (bytesOf (NUL ++ user ++ NUL ++ passwd)))
     = 0 :: bytesOf user ++ 0 :: bytesOf passwd
  /\ String.length (base64_Encode (bytesOf (NUL ++ user ++ NUL ++ passwd)))
     = EncodedLen (String.length user + String.length passwd + 2).
Proof.
  split; [reflexivity|]. split.
  - rewrite (proj1 (base64_roundtrip (bytesOf_bound _))).
    unfold bytesOf, NUL. simpl.
    assert (Happ : forall a b, list_ascii_of_string (a ++ b)
                               = list_ascii_of_string a ++ list_ascii_of_string b).
    { induction a as [|x a IHa]; intros b; simpl; [reflexivity | rewrite IHa; reflexivity]. }
    rewrite Happ, map_app. reflexivity.
  - rewrite (proj1 (base64_length _)). f_equal.
    unfold bytesOf. rewrite length_map.
    assert (Hlen : forall s, length (list_ascii_of_string s) = String.length s).
    { induction s as [|x s IHs]; simpl; [reflexivity | rewrite IHs; reflexivity]. }
    rewrite Hlen. unfold NUL. simpl.
    assert (Hal : forall a b, String.length (a ++ b)
                              = String.length a + String.length b).
    { induction a as [|x a IHa]; intros b; simpl; [reflexivity | rewrite IHa; reflexivity]. }
    rewrite Hal. simpl. lia.
Qed.

(** ** [NewClient]: the host that is dialled, asked of the proxy, verified *)

Lemma LastIndexFrom_without (sep : ascii) (s : string) :
  without sep s = true ->
  forall i last, LastIndexFrom sep s i last = last.
Proof.
  unfold without. induction s as [|c r IH]; simpl; intros H i last.
  - reflexivity.
  - apply andb_prop in H. destruct H as [Hc Hr].
    apply negb_true_iff in Hc. rewrite Hc. apply IH, Hr.
Qed.

Lemma LastIndexFrom_last (sep : ascii) (h p : string) :
  without sep p = true ->
  forall i last,
    LastIndexFrom sep (h ++ String sep p) i last = Some (i + String.length h).
Proof.
  intros Hp. induction h as [|c r IH]; simpl; intros i last.
  - rewrite Ascii.eqb_refl, LastIndexFrom_without by exact Hp.
    rewrite Nat.add_0_r. reflexivity.
  - rewrite IH. f_equal. lia.
Qed.

Lemma substring_prefix (h x : string) :
  substring 0 (String.length h) (h ++ x) = h.
Proof.
  induction h as [|c r IH]; simpl.
  - destruct x; reflexivity.
  - rewrite IH. reflexivity.
Qed.

(** The name to verify is what stands before the last colon. *)
Lemma hostToVerify_last_colon (h p : string) :
  h <> "" -> without ":" p = true ->
  hostToVerify (h ++ String ":" p) = h.
Proof.
  intros Hh Hp. unfold hostToVerify, LastIndex.
  rewrite (@LastIndexFrom_last ":" h p Hp).
  destruct h as [|c r]; [contradiction|].
  cbn [String.length Nat.add].
  apply (substring_prefix (String c r)).
Qed.

Lemma cut_sep_found (sep : ascii) (h p : string) :
  exists a b, cut sep (h ++ String sep p) = Some (a, b).
Proof.
  induction h as [|c r [a [b IH]]]; simpl.
  - rewrite Ascii.eqb_refl. eauto.
  - destruct (Ascii.eqb c sep); [eauto|]. rewrite IH. eauto.
Qed.

(** X15.  A host given explicitly.  When the host holds no colon, the
    port 5222 is appended for the proxy request, and the name checked
    against the certificate is the host itself.  When it ends in a colon
    and a port, it is used as it is, and the name checked is what stands
    before that last colon (so the brackets of an IPv6 literal stay).  In
    both cases the user name plays no part. *)
Theorem X15_NewClient_explicit_host (env : Env) (host user : string) :
  strings_TrimSpace env host <> "" ->
  host <> "" ->
  (without ":" host = true ->
   hostWithPort env host user = (host ++ ":5222")%string
   /\ hostToVerify (hostWithPort env host user) = host)
  /\ (forall h p, host = (h ++ ":" ++ p)%string -> h <> "" -> without ":" p = true ->
                  hostWithPort env host user = host
                  /\ hostToVerify (hostWithPort env host user) = h).
Proof.
  intros Hblank Hne.
  assert (E : hostWithPort env host user
              = match SplitN2 host ":" with
                | [_] => (host ++ ":5222")%string
                | _ => host
                end).
  { unfold hostWithPort. apply String.eqb_neq in Hblank. rewrite Hblank.
    reflexivity. }
  split.
  - intros Hc. rewrite E. unfold SplitN2. rewrite (cut_without _ _ Hc).
    split; [reflexivity|].
    apply (@hostToVerify_last_colon host "5222" Hne). reflexivity.
  - intros h p -> Hh Hp. rewrite E. unfold SplitN2.
    change (h ++ ":" ++ p)%string with (h ++ String ":" p)%string.
    destruct (cut_sep_found ":" h p) as [a [b Hcut]]. rewrite Hcut.
    split; [reflexivity|]. apply hostToVerify_last_colon; assumption.
Qed.

Lemma X15_NewClient_explicit_host_witness :
  (hostWithPort directEnv "talk.example.org" "romeo@example.net"
   = "talk.example.org:5222"
   /\ hostToVerify (hostWithPort directEnv "talk.example.org" "romeo@example.net")
      = "talk.example.org")
  /\ (hostWithPort directEnv "[::1]:5223" "romeo@example.net" = "[::1]:5223"
      /\ hostToVerify (hostWithPort directEnv "[::1]:5223" "romeo@example.net")
         = "[::1]").
Proof.
  split.
  - apply (proj1 (@X15_NewClient_explicit_host directEnv "talk.example.org"
                    "romeo@example.net" ltac:(discriminate) ltac:(discriminate))).
    reflexivity.
  - apply (proj2 (@X15_NewClient_explicit_host directEnv "[::1]:5223"
                    "romeo@example.net" ltac:(discriminate) ltac:(discriminate))
                 "[::1]" "5223").
    + reflexivity.
    + discriminate.
    + reflexivity.
Defined.

(** X16.  A blank host.  The domain of the user name (what follows its
    first [@]) takes the place of the host for the proxy request and for
    the certificate check, with port 5222 appended when the domain holds
    no colon.  The address dialled is not touched by this: without a
    proxy, [net.Dial] is handed the blank host as it was given, and its
    error is what [NewClient] returns. *)
Theorem X16_NewClient_blank_host (env : Env) (host u d passwd : string) :
  strings_TrimSpace env host = "" ->
  without "@" u = true ->
  d <> "" ->
  without ":" d = true ->
  hostWithPort env host (u ++ "@" ++ d) = (d ++ ":5222")%string
  /\ hostToVerify (hostWithPort env host (u ++ "@" ++ d)) = d
  /\ (proxyOf env = "" ->
      forall e, net_Dial env host = inr e ->
                NewClient env host (u ++ "@" ++ d) passwd = NotConnected e [] false).
Proof.
  intros Hblank Hu Hd Hc.
  assert (E : hostWithPort env host (u ++ "@" ++ d) = (d ++ ":5222")%string).
  { unfold hostWithPort, SplitN2. rewrite Hblank. simpl (_ =? _).
    change (u ++ "@" ++ d)%string with (u ++ String "@" d)%string.
    rewrite (cut_first _ _ d Hu). rewrite (cut_without _ _ Hc). reflexivity. }
  split; [exact E|]. split.
  - rewrite E. apply (@hostToVerify_last_colon d "5222" Hd). reflexivity.
  - intros Hp e Hdial.
    assert (Ha : dialAddr env host = host)
      by (unfold dialAddr; rewrite Hp; reflexivity).
    unfold NewClient. rewrite Ha, Hdial. reflexivity.
Qed.

Lemma X16_NewClient_blank_host_witness :
  hostWithPort (mkEnv TrimSpace (fun _ => "") (fun _ => inr io_EOF)
                      (fun _ => inr (errors_New "dial tcp: missing address")))
               " " ("romeo" ++ "@" ++ "example.net")
  = "example.net:5222"
  /\ hostToVerify
       (hostWithPort (mkEnv TrimSpace (fun _ => "") (fun _ => inr io_EOF)
                            (fun _ => inr (errors_New "dial tcp: missing address")))
                     " " ("romeo" ++ "@" ++ "example.net"))
     = "example.net"
  /\ NewClient (mkEnv TrimSpace (fun _ => "") (fun _ => inr io_EOF)
                      (fun _ => inr (errors_New "dial tcp: missing address")))
               " " ("romeo" ++ "@" ++ "example.net") "secret"
     = NotConnected (errors_New "dial tcp: missing address") [] false.
Proof.
  destruct (@X16_NewClient_blank_host
              (mkEnv TrimSpace (fun _ => "") (fun _ => inr io_EOF)
                     (fun _ => inr (errors_New "dial tcp: missing address")))
              " " "romeo" "example.net" "secret"
              eq_refl eq_refl ltac:(discriminate) eq_refl) as [H1 [H2 H3]].
  split; [exact H1|]. split; [exact H2|].
  apply (H3 eq_refl (errors_New "dial tcp: missing address") eq_refl).
Defined.

Lemma init_Ret_script (user passwd : string) (c c' : Client) :
  init user passwd c = Ret tt c' -> tls c' = tls c ++ initScript user passwd.
Proof.
  intros H. destruct (cut "@" user) as [[u d]|] eqn:Hcut.
  - pose proof (init_scripted user passwd c Hcut) as Hs. rewrite H in Hs.
    exact (proj1 Hs).
  - unfold init, SplitN2 in H. rewrite Hcut in H. discriminate H.
Qed.

(** X17.  [NewClient] hands a client to its caller only when the dial,
    the TLS handshake and the verification of the host name (the host
    with the domain and port filled in, cut before its last colon) all
    succeeded and [init] returned nil on a new client over that
    connection; across a proxy, only when the proxy answered 200 to the
    CONNECT lines.  The client returned has had the five texts of [init]
    written, and nothing else. *)
Theorem X17_NewClient_connected
    (env : Env) (host user passwd : string) (c : Client) (sent : list string) :
  NewClient env host user passwd = Connected c sent ->
  exists conn,
    net_Dial env (dialAddr env host) = inl conn
    /\ Handshake conn = None
    /\ VerifyHostname conn (hostToVerify (hostWithPort env host user)) = None
    /\ init user passwd (mkClient (serverStream conn) [] "" []) = Ret tt c
    /\ tls c = initScript user passwd
    /\ ((proxyOf env = "" /\ sent = [])
        \/ (proxyOf env <> ""
            /\ sent = connectLines (hostWithPort env host user)
            /\ exists status, proxyResponse conn = inl (200, status))).
Proof.
  unfold NewClient. intros H.
  destruct (net_Dial env (dialAddr env host)) as [conn | e]; [|discriminate H].
  exists conn. split; [reflexivity|].
  assert (Hsec : forall plain,
             NewClient_secure conn (hostWithPort env host user) user passwd plain
             = Connected c sent ->
             Handshake conn = None
             /\ VerifyHostname conn (hostToVerify (hostWithPort env host user)) = None
             /\ init user passwd (mkClient (serverStream conn) [] "" []) = Ret tt c
             /\ tls c = initScript user passwd
             /\ sent = plain).
  { intros plain Hs. unfold NewClient_secure in Hs.
    destruct (Handshake conn); [discriminate Hs|].
    destruct (VerifyHostname conn (hostToVerify (hostWithPort env host user)));
      [discriminate Hs|].
    destruct (init user passwd (mkClient (serverStream conn) [] "" []))
      as [[] c1 | | |] eqn:Ei; try discriminate Hs.
    injection Hs as -> ->. repeat split; try reflexivity.
    apply (init_Ret_script _ _ _ Ei). }
  destruct (proxyOf env =? "") eqn:Hp.
  - apply String.eqb_eq in Hp.
    destruct (Hsec [] H) as [H1 [H2 [H3 [H4 H5]]]]. auto 10.
  - apply String.eqb_neq in Hp.
    destruct (proxyResponse conn) as [[code status] | e]; [|discriminate H].
    destruct (Nat.eqb code 200) eqn:Hcode.
    + apply Nat.eqb_eq in Hcode. subst code. simpl in H.
      destruct (Hsec _ H) as [H1 [H2 [H3 [H4 H5]]]].
      repeat split; try assumption. right. repeat split; eauto.
    + simpl in H. destruct (SplitN2 status " ") as [|x [|y [|z r]]];
        discriminate H.
Qed.

Lemma X17_NewClient_connected_witness :
  exists conn,
    net_Dial directEnv (dialAddr directEnv "talk.example.org") = inl conn
    /\ Handshake conn = None
    /\ VerifyHostname conn
         (hostToVerify (hostWithPort directEnv "talk.example.org" "user@domain"))
       = None
    /\ init "user@domain" "invalid" (mkClient (serverStream conn) [] "" [])
       = Ret tt (mkClient (mkDecoder [] io_EOF) (initScript "user@domain" "invalid")
                          "" [])
    /\ tls (mkClient (mkDecoder [] io_EOF) (initScript "user@domain" "invalid") "" [])
       = initScript "user@domain" "invalid"
    /\ ((proxyOf directEnv = "" /\ @nil string = [])
        \/ (proxyOf directEnv <> ""
            /\ [] = connectLines (hostWithPort directEnv "talk.example.org" "user@domain")
            /\ exists status, proxyResponse conn = inl (200, status))).
Proof.
  apply (@X17_NewClient_connected directEnv "talk.example.org" "user@domain" "invalid").
  vm_compute. reflexivity.
Defined.

(** X18.  Across a proxy, a response whose status code is not 200 stops
    [NewClient] before any TLS handshake: it returns as its error the
    status text after the first space (the reason phrase), the three
    CONNECT lines having been written in clear.  When the status text
    holds no space (a status line without reason phrase), indexing the
    second part of the split panics. *)
Theorem X18_NewClient_proxy_refusal
    (env : Env) (host user passwd : string) (conn : Conn)
    (code : nat) (status : string) :
  proxyOf env <> "" ->
  net_Dial env (dialAddr env host) = inl conn ->
  proxyResponse conn = inl (code, status) ->
  code <> 200 ->
  (forall first reason,
      cut " " status = Some (first, reason) ->
      NewClient env host user passwd
      = NotConnected (errors_New reason)
                     (connectLines (hostWithPort env host user)) false)
  /\ (without " " status = true ->
      NewClient env host user passwd
      = Panicked "runtime error: index out of range [1] with length 1"
                 (connectLines (hostWithPort env host user))).
Proof.
  intros Hp Hdial Hresp Hcode.
  apply String.eqb_neq in Hp. apply Nat.eqb_neq in Hcode.
  unfold NewClient. rewrite Hdial, Hp, Hresp, Hcode. simpl negb. cbn iota.
  unfold SplitN2. split.
  - intros first reason Hcut. rewrite Hcut. reflexivity.
  - intros Hs. rewrite (cut_without _ _ Hs). reflexivity.
Qed.

Lemma X18_NewClient_proxy_refusal_witness :
  NewClient proxyEnv "talk.example.org" "user@domain" "invalid"
  = NotConnected (errors_New "Proxy Authentication Required")
                 (connectLines "talk.example.org:5222") false.
Proof.
  apply (proj1 (@X18_NewClient_proxy_refusal
                  proxyEnv "talk.example.org" "user@domain" "invalid"
                  (mkConn (inl (407, "407 Proxy Authentication Required"))
                          None (fun _ => None) (mkDecoder [] io_EOF))
                  407 "407 Proxy Authentication Required"
                  ltac:(discriminate) eq_refl eq_refl ltac:(discriminate))
               "407" "Proxy Authentication Required").
  reflexivity.
Defined.

(** A cut gives back the two sides of the separator. *)
Lemma cut_Some_app (sep : ascii) (s a b : string) :
  cut sep s = Some (a, b) -> s = (a ++ String sep b)%string.
Proof.
  revert a. induction s as [|x s IH]; simpl; intros a H; [discriminate|].
  destruct (Ascii.eqb x sep) eqn:Ex.
  - apply Ascii.eqb_eq in Ex. injection H as <- <-. subst x. reflexivity.
  - destruct (cut sep s) as [[a' b']|]; [|discriminate].
    injection H as <- <-. simpl. rewrite <- (IH a' eq_refl). reflexivity.
Qed.

(** X19.  [NewClient] calls [Close] on exactly one path: after [init]
    returned an error, which is then the error of [NewClient].  When the
    dial, the proxy exchange, the handshake or the host name verification
    fails, it returns the error without closing what it dialled. *)
Theorem X19_NewClient_closes_only_after_init
    (env : Env) (host user passwd : string) (e : error) (sent : list string)
    (closed : bool) :
  NewClient env host user passwd = NotConnected e sent closed ->
  (closed = true ->
   exists conn c',
     net_Dial env (dialAddr env host) = inl conn
     /\ Handshake conn = None
     /\ VerifyHostname conn (hostToVerify (hostWithPort env host user)) = None
     /\ init user passwd (mkClient (serverStream conn) [] "" []) = Fail e c')
  /\ (closed = false ->
      net_Dial env (dialAddr env host) = inr e
      \/ exists conn,
           net_Dial env (dialAddr env host) = inl conn
           /\ (proxyResponse conn = inr e
               \/ (exists code first,
                      code <> 200
                      /\ proxyResponse conn = inl (code, (first ++ " " ++ Error e)%string))
               \/ Handshake conn = Some e
               \/ (Handshake conn = None
                   /\ VerifyHostname conn (hostToVerify (hostWithPort env host user))
                      = Some e))).
Proof.
  unfold NewClient. intros H.
  destruct (net_Dial env (dialAddr env host)) as [conn | e0].
  2:{ injection H as -> _ <-. split; [discriminate | auto]. }
  assert (Hsec : forall plain,
             NewClient_secure conn (hostWithPort env host user) user passwd plain
             = NotConnected e sent closed ->
             (closed = true ->
              Handshake conn = None
              /\ VerifyHostname conn (hostToVerify (hostWithPort env host user)) = None
              /\ exists c', init user passwd (mkClient (serverStream conn) [] "" [])
                            = Fail e c')
             /\ (closed = false ->
                 Handshake conn = Some e
                 \/ (Handshake conn = None
                     /\ VerifyHostname conn
                          (hostToVerify (hostWithPort env host user)) = Some e))).
  { intros plain Hs. unfold NewClient_secure in Hs.
    destruct (Handshake conn) as [eh|].
    { injection Hs as -> _ <-. split; [discriminate | auto]. }
    destruct (VerifyHostname conn (hostToVerify (hostWithPort env host user)))
      as [ev|].
    { injection Hs as -> _ <-. split; [discriminate | auto]. }
    destruct (init user passwd (mkClient (serverStream conn) [] "" []))
      as [[] c1 | e1 c1 | |]; try discriminate Hs.
    injection Hs as -> _ <-. split; [eauto | discriminate]. }
  assert (Hwrap : (closed = true ->
              Handshake conn = None
              /\ VerifyHostname conn (hostToVerify (hostWithPort env host user)) = None
              /\ exists c', init user passwd (mkClient (serverStream conn) [] "" [])
                            = Fail e c')
             /\ (closed = false ->
                 Handshake conn = Some e
                 \/ (Handshake conn = None
                     /\ VerifyHostname conn
                          (hostToVerify (hostWithPort env host user)) = Some e)) ->
             (closed = true ->
              exists conn0 c',
                @inl Conn error conn = inl conn0
                /\ Handshake conn0 = None
                /\ VerifyHostname conn0 (hostToVerify (hostWithPort env host user)) = None
                /\ init user passwd (mkClient (serverStream conn0) [] "" []) = Fail e c')
             /\ (closed = false ->
                 @inl Conn error conn = inr e
                 \/ exists conn0,
                      @inl Conn error conn = inl conn0
                      /\ (proxyResponse conn0 = inr e
                          \/ (exists code first,
                                 code <> 200
                                 /\ proxyResponse conn0
                                    = inl (code, (first ++ " " ++ Error e)%string))
                          \/ Handshake conn0 = Some e
                          \/ (Handshake conn0 = None
                              /\ VerifyHostname conn0
                                   (hostToVerify (hostWithPort env host user))
                                 = Some e)))).
  { intros [Ht Hf]. split.
    - intros Hc. destruct (Ht Hc) as [H1 [H2 [c' H3]]]. exists conn, c'. auto.
    - intros Hc. right. exists conn. split; [reflexivity|].
      destruct (Hf Hc) as [H1 | H1]; auto. }
  destruct (proxyOf env =? "").
  - apply Hwrap, (Hsec _ H).
  - destruct (proxyResponse conn) as [[code status] | er] eqn:Hresp.
    + destruct (Nat.eqb code 200) eqn:Hcode; simpl in H.
      * apply Hwrap, (Hsec _ H).
      * unfold SplitN2 in H.
        destruct (cut " " status) as [[first reason]|] eqn:Hcut; [|discriminate H].
        injection H as <- _ <-. split; [discriminate|].
        intros _. right. exists conn. split; [reflexivity|]. right. left.
        exists code, first. split; [apply Nat.eqb_neq, Hcode|].
        rewrite Hresp. do 2 f_equal. apply cut_Some_app in Hcut. exact Hcut.
    + injection H as <- _ <-. split; [discriminate|].
      intros _. right. exists conn. auto.
Qed.

Lemma X19_NewClient_closes_witness :
  exists conn c',
    net_Dial oauthOnlyEnv (dialAddr oauthOnlyEnv "talk.example.org") = inl conn
    /\ Handshake conn = None
    /\ VerifyHostname conn
         (hostToVerify (hostWithPort oauthOnlyEnv "talk.example.org" "user@domain"))
       = None
    /\ init "user@domain" "invalid" (mkClient (serverStream conn) [] "" [])
       = Fail (errors_New "PLAIN authentication is not an option: [X-OAUTH2]") c'.
Proof.
  apply (proj1 (@X19_NewClient_closes_only_after_init
                  oauthOnlyEnv "talk.example.org" "user@domain" "invalid"
                  (errors_New "PLAIN authentication is not an option: [X-OAUTH2]")
                  [] true eq_refl)).
  reflexivity.
Defined.

(** ** What a successful [init] has seen *)

Lemma bind_Ret {St A B} (m : M St A) (k : A -> M St B) (s s' : St) (b : B) :
  bind m k s = Ret b s' -> exists a s1, m s = Ret a s1 /\ k a s1 = Ret b s'.
Proof.
  unfold bind. destruct (m s) as [a s1 | | |]; try discriminate. eauto.
Qed.

Lemma attempt_Ret {St A} (m : M St A) (s s' : St) (r : A + error) :
  attempt m s = Ret r s' ->
  (exists a, m s = Ret a s' /\ r = inl a) \/ (exists e, m s = Fail e s' /\ r = inr e).
Proof.
  unfold attempt. destruct (m s) as [a s1 | e s1 | |]; try discriminate;
    intros H; injection H as <- <-; eauto.
Qed.

Lemma onDec_Ret {A} (m : M Decoder A) (c c' : Client) (a : A) :
  onDec m c = Ret a c' ->
  exists d, m (dec c) = Ret a d /\ c' = mkClient d (tls c) (jid c) (stdout c).
Proof.
  unfold onDec. destruct (m (dec c)) as [a1 d | | |]; try discriminate.
  intros H. injection H as <- <-. eauto.
Qed.

Lemma onDec_Fail {A} (m : M Decoder A) (c c' : Client) (e : error) :
  onDec m c = Fail e c' ->
  exists d, m (dec c) = Fail e d /\ c' = mkClient d (tls c) (jid c) (stdout c).
Proof.
  unfold onDec. destruct (m (dec c)) as [ | e1 d | |]; try discriminate.
  intros H. injection H as <- <-. eauto.
Qed.

Lemma is_root (se : StartElement) :
  negb (Space (se_Name se) =? nsStream) || negb (Local (se_Name se) =? "stream")
  = false ->
  se_Name se = mkName nsStream "stream".
Proof.
  destruct (se_Name se) as [ns l]. simpl. intros H.
  apply orb_false_elim in H. destruct H as [H1 H2].
  apply negb_false_iff in H1, H2. apply String.eqb_eq in H1, H2. subst.
  reflexivity.
Qed.

Lemma init_bind_Ret (c c' : Client) :
  init_bind c = Ret tt c' ->
  exists iq d,
    DecodeInto clientIQ.info clientIQ.zero None (dec c) = Ret iq d
    /\ c' = mkClient d (tls c ++ [W_text bindRequest; W_text initialPresence])
                     (bindBind.Jid (clientIQ.Bind iq)) (stdout c).
Proof.
  intros H. unfold init_bind in H.
  apply bind_Ret in H. destruct H as [[] [c1 [H1 H]]].
  unfold Fprintf in H1. injection H1 as <-.
  apply bind_Ret in H. destruct H as [r [c2 [H2 H]]].
  apply attempt_Ret in H2. destruct H2 as [[iq [H2 ->]] | [e [_ ->]]];
    [|discriminate H].
  apply onDec_Ret in H2. destruct H2 as [d [H2 ->]]. simpl in H2.
  unfold addrIsNil, bind, setJid, Fprintf in H. simpl in H. injection H as <-.
  exists iq, d. split; [exact H2|]. rewrite <- app_assoc. reflexivity.
Qed.

(** X20.  [init] returns nil exactly when the name has its '@', the first
    element read is the stream root, the features block decodes with PLAIN
    among its mechanisms, [next] then yields a SASL success, the next
    element is again the stream root, the second features read returns
    (with a value or with an error, which is dropped) and the query result
    decodes.  The client is then left with the decoder after the query
    result, the five texts of the script appended to what had been written,
    the identifier of the bind block of the result (empty when the result
    holds none) as its [jid], and nothing printed. *)
Theorem X20_init_success_exactly (user passwd : string) (c c' : Client) :
  init user passwd c = Ret tt c'
  <-> exists u domain se1 d1 f d2 n s d3 se2 d4 d5 iq d6,
        cut "@" user = Some (u, domain)
        /\ nextStart (dec c) = Ret se1 d1
        /\ se_Name se1 = mkName nsStream "stream"
        /\ DecodeInto streamFeatures.info streamFeatures.zero None d1 = Ret f d2
        /\ In "PLAIN" (saslMechanisms.Mechanism (streamFeatures.Mechanisms f))
        /\ next d2 = Ret (n, V_saslSuccess s) d3
        /\ nextStart d3 = Ret se2 d4
        /\ se_Name se2 = mkName nsStream "stream"
        /\ ((exists e, DecodeInto streamFeatures.info f None d4 = Fail e d5)
            \/ (exists f', DecodeInto streamFeatures.info f None d4 = Ret f' d5))
        /\ DecodeInto clientIQ.info clientIQ.zero None d5 = Ret iq d6
        /\ c' = mkClient d6 (tls c ++ initScript user passwd)
                         (bindBind.Jid (clientIQ.Bind iq)) (stdout c).
Proof.
  split.
  - intros H. unfold init, SplitN2 in H.
    destruct (cut "@" user) as [[u domain]|] eqn:Hcut; [|discriminate H].
    apply bind_Ret in H. destruct H as [[] [c1 [H1 H]]].
    unfold Fprintf in H1. injection H1 as <-. cbn [dec tls jid stdout] in *.
    apply bind_Ret in H. destruct H as [se1 [c2 [H2 H]]].
    apply onDec_Ret in H2. destruct H2 as [d1 [E1 ->]]. cbn [dec tls jid stdout] in *.
    destruct (negb (Space (se_Name se1) =? nsStream)
              || negb (Local (se_Name se1) =? "stream")) eqn:Hr1;
      [discriminate H|].
    apply is_root in Hr1.
    apply bind_Ret in H. destruct H as [r [c3 [H3 H]]].
    apply attempt_Ret in H3. destruct H3 as [[f [H3 ->]] | [e [_ ->]]];
      [|discriminate H].
    apply onDec_Ret in H3. destruct H3 as [d2 [E2 ->]]. cbn [dec tls jid stdout] in *.
    unfold init_auth in H.
    destruct (havePlain (saslMechanisms.Mechanism (streamFeatures.Mechanisms f)))
      eqn:Hp; [|discriminate H].
    apply havePlain_In in Hp. simpl negb in H. cbv iota in H.
    apply bind_Ret in H. destruct H as [[] [c4 [H4 H]]].
    unfold Fprintf in H4. injection H4 as <-. cbn [dec tls jid stdout] in *.
    unfold init_restart in H.
    apply bind_Ret in H. destruct H as [r [c5 [H5 H]]].
    apply attempt_Ret in H5. destruct H5 as [[[n v] [H5 ->]] | [e [_ ->]]];
      [|discriminate H].
    apply onDec_Ret in H5. destruct H5 as [d3 [E3 ->]]. cbn [dec tls jid stdout] in *.
    destruct v; try discriminate H.
    apply bind_Ret in H. destruct H as [[] [c6 [H6 H]]].
    unfold Fprintf in H6. injection H6 as <-. cbn [dec tls jid stdout] in *.
    apply bind_Ret in H. destruct H as [se2 [c7 [H7 H]]].
    apply onDec_Ret in H7. destruct H7 as [d4 [E4 ->]]. cbn [dec tls jid stdout] in *.
    destruct (negb (Space (se_Name se2) =? nsStream)
              || negb (Local (se_Name se2) =? "stream")) eqn:Hr2;
      [discriminate H|].
    apply is_root in Hr2.
    unfold init_features2 in H.
    apply bind_Ret in H. destruct H as [r [c8 [H8 H]]].
    assert (exists d5,
              ((exists e, DecodeInto streamFeatures.info f None d4 = Fail e d5)
               \/ (exists f', DecodeInto streamFeatures.info f None d4 = Ret f' d5))
              /\ dec c8 = d5
              /\ tls c8 = (tls c ++ [W_text (xmlDecl ++ streamHeader domain)]
                           ++ [W_text (authPlain u passwd)]
                           ++ [W_text (streamHeader domain)])%list
              /\ stdout c8 = stdout c) as [d5 [E5 [Hd [Ht Hs]]]].
    { apply attempt_Ret in H8. destruct H8 as [[f' [H8 _]] | [e [H8 _]]].
      - apply onDec_Ret in H8. destruct H8 as [d5 [E5 ->]]. cbn [dec tls jid stdout] in *.
        exists d5. simpl. rewrite <- !app_assoc. eauto 6.
      - apply onDec_Fail in H8. destruct H8 as [d5 [E5 ->]]. cbn [dec tls jid stdout] in *.
        exists d5. simpl. rewrite <- !app_assoc. eauto 6. }
    apply init_bind_Ret in H. destruct H as [iq [d6 [E6 ->]]]. cbn [dec tls jid stdout] in *.
    rewrite Hd in E6.
    exists u, domain, se1, d1, f, d2, n. eexists.
    exists d3, se2, d4, d5, iq, d6.
    split; [reflexivity|]. repeat (split; [eassumption|]).
    rewrite Ht, Hs. unfold initScript. rewrite Hcut. cbn [map].
    rewrite <- !app_assoc. reflexivity.
  - intros (u & domain & se1 & d1 & f & d2 & n & s & d3 & se2 & d4 & d5 & iq & d6
            & Hcut & E1 & Hr1 & E2 & Hp & E3 & E4 & Hr2 & E5 & E6 & ->).
    rewrite (@init_reaches_restart user passwd u domain c se1 d1 d2 f
               Hcut E1 Hr1 E2 Hp).
    rewrite (@init_restart_reaches_features2 domain f
               (wrote c d2 [(xmlDecl ++ streamHeader domain)%string; authPlain u passwd])
               n s d3 d4 se2 E3 E4 Hr2).
    match goal with
    | |- init_features2 f ?c4 = _ => rewrite (@init_features2_any f c4 d5 E5)
    end.
    match goal with
    | |- init_bind ?c5 = _ => rewrite (@init_bind_accepts c5 iq d6 E6)
    end.
    unfold wrote, initScript. rewrite Hcut. simpl.
    rewrite <- !app_assoc. reflexivity.
Qed.

Lemma X20_init_success_witness :
  exists u domain se1 d1 f d2 n s d3 se2 d4 d5 iq d6,
    cut "@" "user@domain" = Some (u, domain)
    /\ nextStart (serverStream goodConn) = Ret se1 d1
    /\ se_Name se1 = mkName nsStream "stream"
    /\ DecodeInto streamFeatures.info streamFeatures.zero None d1 = Ret f d2
    /\ In "PLAIN" (saslMechanisms.Mechanism (streamFeatures.Mechanisms f))
    /\ next d2 = Ret (n, V_saslSuccess s) d3
    /\ nextStart d3 = Ret se2 d4
    /\ se_Name se2 = mkName nsStream "stream"
    /\ ((exists e, DecodeInto streamFeatures.info f None d4 = Fail e d5)
        \/ (exists f', DecodeInto streamFeatures.info f None d4 = Ret f' d5))
    /\ DecodeInto clientIQ.info clientIQ.zero None d5 = Ret iq d6
    /\ mkClient (mkDecoder [] io_EOF) (initScript "user@domain" "invalid") "" []
       = mkClient d6 ([] ++ initScript "user@domain" "invalid")
                  (bindBind.Jid (clientIQ.Bind iq)) [].
Proof.
  apply (proj1 (@X20_init_success_exactly "user@domain" "invalid"
                  (mkClient (serverStream goodConn) [] "" [])
                  (mkClient (mkDecoder [] io_EOF)
                            (initScript "user@domain" "invalid") "" []))).
  reflexivity.
Defined.

(** ** A decoded element is read to its end, and no further *)

Lemma skipFrom_final (fin : error) :
  forall (toks : list Token) (n : nat) (d : Decoder),
    skipFrom n toks fin = Ret tt d -> final d = fin.
Proof.
  induction toks as [|t r IH]; intros n d; simpl.
  - discriminate.
  - destruct t; try apply IH.
    destruct n; [|apply IH].
    intros H. injection H as <-. reflexivity.
Qed.

Lemma skipFrom_deeper (fin : error) :
  forall (toks : list Token) (n : nat) (d : Decoder),
    skipFrom n toks fin = Ret tt d ->
    forall k, skipFrom (n + S k) toks fin = skipFrom k (pending d) fin.
Proof.
  induction toks as [|t r IH]; intros n d; simpl.
  - discriminate.
  - destruct t; try (intros H k; apply (IH n d H k)).
    + intros H k. apply (IH (S n) d H k).
    + destruct n.
      * intros H k. injection H as <-. reflexivity.
      * intros H k. apply (IH n d H k).
Qed.

Lemma Skip_after_child (r : list Token) (fin : error) (d1 d' : Decoder) :
  Skip (mkDecoder r fin) = Ret tt d1 ->
  Skip d1 = Ret tt d' ->
  skipFrom 1 r fin = Ret tt d'.
Proof.
  unfold Skip. cbn [pending final]. intros H1 H2.
  rewrite (skipFrom_final _ _ _ H1) in H2.
  rewrite <- H2. exact (skipFrom_deeper _ _ 0 H1 0).
Qed.

Lemma readsElement_findEnd {T} (fields : list (fieldInfo T)) (saveData : bool) :
  readElements fields ->
  forall (fuel : nat) (v : T) (data : string) (d : Decoder) r d',
    findEnd fields saveData fuel v data d = Ret r d' -> Skip d = Ret tt d'.
Proof.
  intros Hfields. induction fuel as [|fuel IH]; intros v data d r d' H.
  - discriminate H.
  - destruct d as [[|t rest] fin].
    + discriminate H.
    + cbn [findEnd] in H. unfold bind at 1, Token_ at 1 in H.
      cbn [pending final] in H.
      assert (Hpass : forall v1 data1,
                 findEnd fields saveData fuel v1 data1 (mkDecoder rest fin) = Ret r d' ->
                 skipFrom 0 rest fin = Ret tt d').
      { intros v1 data1 H1. exact (IH _ _ _ _ _ H1). }
      destruct t; unfold Skip; cbn [pending final skipFrom];
        try (exact (Hpass _ _ H)).
      * destruct (unmarshalPath fields se) as [f|] eqn:Hpath.
        -- unfold unmarshalPath in Hpath. apply find_some in Hpath.
           destruct Hpath as [Hin Hm].
           unfold readElements in Hfields. rewrite Forall_forall in Hfields.
           assert (Ha : f_attr f = false).
           { unfold fieldMatches in Hm. destruct (f_attr f); [discriminate Hm|reflexivity]. }
           unfold bind in H.
           destruct (f_unmarshal f fuel se v (mkDecoder rest fin)) as [v1 d1 | | |] eqn:E;
             try discriminate H.
           apply (Hfields f Hin Ha) in E. apply IH in H.
           exact (@Skip_after_child _ _ _ _ E H).
        -- unfold bind in H.
           destruct (Skip (mkDecoder rest fin)) as [[] d1 | | |] eqn:E;
             try discriminate H.
           apply IH in H. exact (@Skip_after_child _ _ _ _ E H).
      * injection H as _ <-. reflexivity.
Qed.

Lemma readElements_nil {T} : readElements (@nil (fieldInfo T)).
Proof. constructor. Qed.

Lemma readsElement_unmarshalStruct {T} (ti : typeInfo T) :
  readElements (ti_fields ti) -> readsElement (unmarshalStruct ti).
Proof.
  intros Hfields fuel start v v' d d' H. unfold unmarshalStruct in H.
  destruct (negb (ti_name ti =? "") && negb (ti_name ti =? Local (se_Name start)));
    [discriminate H|].
  destruct (negb (ti_xmlns ti =? "") && negb (ti_xmlns ti =? Space (se_Name start)));
    [discriminate H|].
  apply bind_Ret in H. destruct H as [r [d1 [H1 H2]]].
  injection H2 as _ <-. exact (@readsElement_findEnd _ _ _ Hfields _ _ _ _ _ _ H1).
Qed.

Lemma readsElement_unmarshalString : readsElement unmarshalString.
Proof.
  intros fuel start v v' d d' H. unfold unmarshalString in H.
  apply bind_Ret in H. destruct H as [r [d1 [H1 H2]]].
  injection H2 as _ <-. exact (@readsElement_findEnd _ _ _ readElements_nil _ _ _ _ _ _ H1).
Qed.

Lemma readsElement_unmarshalBool : readsElement unmarshalBool.
Proof.
  intros fuel start v v' d d' H. unfold unmarshalBool in H.
  apply bind_Ret in H. destruct H as [r [d1 [H1 H2]]].
  assert (d1 = d') as <-.
  { destruct (snd r =? ""); [injection H2 as _ <-; reflexivity|].
    destruct (ParseBool (TrimSpace (snd r))); [|discriminate H2].
    injection H2 as _ <-. reflexivity. }
  exact (@readsElement_findEnd _ _ _ readElements_nil _ _ _ _ _ _ H1).
Qed.

Lemma readsElement_unmarshalStrings : readsElement unmarshalStrings.
Proof.
  intros fuel start v v' d d' H. unfold unmarshalStrings in H.
  apply bind_Ret in H. destruct H as [r [d1 [H1 H2]]].
  injection H2 as _ <-. exact (@readsElement_unmarshalString _ _ _ _ _ _ H1).
Qed.

Lemma readsElement_unmarshalName : readsElement unmarshalName.
Proof.
  intros fuel start v v' d d' H. unfold unmarshalName in H.
  apply bind_Ret in H. destruct H as [r [d1 [H1 H2]]].
  injection H2 as _ <-. exact (@readsElement_findEnd _ _ _ readElements_nil _ _ _ _ _ _ H1).
Qed.

Lemma readsElement_unmarshalPtr {U} (zero : U) (u : unm U) :
  readsElement u -> readsElement (unmarshalPtr zero u).
Proof.
  intros Hu fuel start v v' d d' H. unfold unmarshalPtr in H.
  apply bind_Ret in H. destruct H as [r [d1 [H1 H2]]].
  injection H2 as _ <-. exact (Hu _ _ _ _ _ _ H1).
Qed.

Lemma readsElement_onField {T U} (get : T -> U) (set : U -> T -> T) (u : unm U) :
  readsElement u -> readsElement (onField get set u).
Proof.
  intros Hu fuel start v v' d d' H. unfold onField in H.
  apply bind_Ret in H. destruct H as [r [d1 [H1 H2]]].
  injection H2 as _ <-. exact (Hu _ _ _ _ _ _ H1).
Qed.

Create HintDb element.

#[local] Hint Resolve readsElement_unmarshalStruct readsElement_unmarshalString
  readsElement_unmarshalBool readsElement_unmarshalStrings readsElement_unmarshalName
  readsElement_unmarshalPtr readsElement_onField readElements_nil : element.

Ltac fields_read :=
  unfold readElements; simpl;
  repeat (apply Forall_cons;
          [simpl; first [ intros Hattr; discriminate Hattr
                        | intros _; auto 6 with element ] |]);
  apply Forall_nil.

Lemma readElements_tlsStartTLS : readElements (ti_fields tlsStartTLS.info).
Proof. fields_read. Qed.

Lemma readElements_saslMechanisms : readElements (ti_fields saslMechanisms.info).
Proof. fields_read. Qed.

Lemma readElements_saslFailure : readElements (ti_fields saslFailure.info).
Proof. fields_read. Qed.

Lemma readElements_bindBind : readElements (ti_fields bindBind.info).
Proof. fields_read. Qed.

Lemma readElements_streamError : readElements (ti_fields streamError.info).
Proof. fields_read. Qed.

Lemma readElements_clientError : readElements (ti_fields clientError.info).
Proof. fields_read. Qed.

Lemma readElements_Message : readElements (ti_fields Message.info).
Proof. fields_read. Qed.

#[local] Hint Resolve readElements_tlsStartTLS readElements_saslMechanisms
  readElements_saslFailure readElements_bindBind readElements_streamError
  readElements_clientError readElements_Message : element.

Lemma readElements_streamFeatures : readElements (ti_fields streamFeatures.info).
Proof. fields_read. Qed.

Lemma readElements_Presence : readElements (ti_fields Presence.info).
Proof. fields_read. Qed.

Lemma readElements_clientIQ : readElements (ti_fields clientIQ.info).
Proof. fields_read. Qed.

#[local] Hint Resolve readElements_streamFeatures readElements_Presence
  readElements_clientIQ : element.

Lemma DecodeInto_reads_element {T} (ti : typeInfo T) (v v' : T)
    (se : StartElement) (d d' : Decoder) :
  readElements (ti_fields ti) ->
  DecodeInto ti v (Some se) d = Ret v' d' -> Skip d = Ret tt d'.
Proof.
  intros Hfields H. unfold DecodeInto in H.
  exact (@readsElement_unmarshalStruct _ _ Hfields _ _ _ _ _ _ H).
Qed.

Lemma DecodeElement_reads_element (nv x : value) (se : StartElement)
    (d d' : Decoder) :
  DecodeElement nv (Some se) d = Ret x d' -> Skip d = Ret tt d'.
Proof.
  destruct nv; unfold DecodeElement; try discriminate;
    intros H; apply bind_Ret in H; destruct H as [y [d1 [H1 H2]]];
    injection H2 as _ <-;
    apply DecodeInto_reads_element in H1;
    auto with element.
Qed.

(** X22.  A call of [next] that returns a value has read one whole
    element and nothing after it: the start element [nextStart] found
    (whose name it returns) and then everything up to the end element
    that closes it, children the struct has no field for included.  The
    decoder is left where skipping that element would have left it, so
    the following call starts at the next sibling. *)
Theorem X22_next_reads_one_element (p p' : Decoder) (n : Name) (v : value) :
  next p = Ret (n, v) p' ->
  exists se p1,
    nextStart p = Ret se p1 /\ n = se_Name se /\ Skip p1 = Ret tt p'.
Proof.
  intros H.
  destruct (nextStart p) as [se p1 | e p1 | l p1 |] eqn:E.
  - rewrite (next_unfold p E) in H.
    destruct (lookupName (se_Name se) protoTable) as [nv|]; [|discriminate H].
    apply bind_Ret in H. destruct H as [x [d1 [H1 H2]]].
    injection H2 as <- _ <-.
    exists se, p1. repeat split. exact (@DecodeElement_reads_element _ _ _ _ _ H1).
  - exfalso. exact (nextStart_never_fails p E).
  - unfold next, bind in H. rewrite E in H. discriminate H.
  - exfalso. exact (nextStart_finishes p E).
Qed.

Lemma X22_next_reads_one_element_witness :
  exists se p1,
    nextStart (mkDecoder srvMessageThenPresence io_EOF) = Ret se p1
    /\ mkName nsClient "message" = se_Name se
    /\ Skip p1
       = Ret tt (mkDecoder [startEl nsClient "presence" []; endEl nsClient "presence"]
                           io_EOF).
Proof.
  apply (@X22_next_reads_one_element
           (mkDecoder srvMessageThenPresence io_EOF)
           (mkDecoder [startEl nsClient "presence" []; endEl nsClient "presence"] io_EOF)
           (mkName nsClient "message")
           (V_Message (Message.mk (mkName nsClient "message") "juliet@example.com"
                                  "" "" "" "" "hello" ""))).
  reflexivity.
Defined.

(** ** What [nextStart] passes over *)

(** X21.  [nextStart] returns the first start element of the stream and
    leaves the decoder right after it; every token before it (character
    data, comments, processing instructions, directives, and end elements
    too) is dropped without a trace.  When no start element is left, it
    reads the stream to its end and the process is terminated with the
    error of the transport; it never returns an error to its caller. *)
Theorem X21_nextStart_first_start_element (p : Decoder) :
  match nextStart p with
  | Ret se p' =>
      exists pre,
        pending p = pre ++ TStartElement se :: pending p'
        /\ forallb (fun t => negb (isStart t)) pre = true
        /\ final p' = final p
  | Exit logged p' =>
      forallb (fun t => negb (isStart t)) (pending p) = true
      /\ logged = ("token" ++ Error (final p))%string
      /\ p' = mkDecoder [] (final p)
  | Fail _ _ | OutOfFuel => False
  end.
Proof.
  unfold nextStart. destruct p as [toks fin]. cbn [pending final].
  induction toks as [|t r IH]; cbn [nextStart_scan].
  - repeat split.
  - assert (Hpass : isStart t = false ->
              match nextStart_scan r fin with
              | Ret se p' =>
                  exists pre,
                    t :: r = pre ++ TStartElement se :: pending p'
                    /\ forallb (fun t => negb (isStart t)) pre = true
                    /\ final p' = fin
              | Exit logged p' =>
                  forallb (fun t => negb (isStart t)) (t :: r) = true
                  /\ logged = ("token" ++ Error fin)%string
                  /\ p' = mkDecoder [] fin
              | Fail _ _ | OutOfFuel => False
              end).
    { intros Ht. destruct (nextStart_scan r fin) as [se p' | | l p' |];
        try exact IH.
      - destruct IH as [pre [Hr [Hpre Hfin]]]. exists (t :: pre).
        cbn [app forallb]. rewrite Ht, Hpre, <- Hr. auto.
      - cbn [forallb]. rewrite Ht. exact IH. }
    destruct t; try (apply Hpass; reflexivity).
    exists []. repeat split.
Qed.
